(** * The SDR sealing task of curio ([tasks/seal/task_sdr.go])

    A shallow embedding of the task: [SDRTask.Do] with its piece layout,
    [getTicket], [CanAccept], [taskToSector], [GetSpid], [TypeDetails]
    and the devnet flag, and the properties that hold on them.

    Integers are modelled as [Z] with the 64-bit wrap-around of Go written
    out.  The database, the chain API, the sealing calls and the
    commitment library are the collaborators of the task: the two tables
    the task reads and writes are part of the state, every other
    collaborator is a field of [Env], as is what the other sessions of
    the database commit while the task runs.  The padding of lotus
    ([ffiwrapper.GetRequiredPadding]) and the piece sizes of
    go-state-types are modelled as those libraries define them; the
    filler decomposition of [lib/filler] is modelled from the
    specification. *)

From Stdlib Require Import ZArith String DecimalString Bool Lia List
  Permutation Sorted.
Import ListNotations.
Local Open Scope Z_scope.

(** ** Outcomes of Go code *)

(** Run-time panics that the embedded code can raise. *)
Inductive PanicKind : Type :=
| NilDereference        (* invalid memory address or nil pointer dereference *)
| IndexOutOfRange       (* index out of range [0] with length 0 *)
| IntegerDivideByZero.  (* integer divide by zero *)

(** Error values.  A constructor per [xerrors.Errorf] of the source (the
    [%w] argument is the [cause]); [ErrExternal] is an error value made by
    a collaborator, [ErrInvalidLayout] the one of the filler
    decomposition. *)
Inductive Error : Type :=
| ErrExternal (tag : string)
| ErrInvalidLayout
| ErrGettingSectorParams (cause : Error)      (* "getting sector params: %w" *)
| ErrExpected1SectorParams (got : nat)        (* "expected 1 sector params, got %d" *)
| ErrGettingPieces (cause : Error)            (* "getting pieces: %w" *)
| ErrGettingSectorSize (cause : Error)        (* "getting sector size: %w" *)
| ErrParsingPieceCid (cause : Error)          (* "parsing piece cid: %w" *)
| ErrFinalPadding (cause : Error)             (* "failed to calculate the final padding: %w" *)
| ErrComputingCommD (cause : Error)           (* "computing CommD: %w" *)
| ErrGettingMinerAddress (cause : Error)      (* "getting miner address: %w" *)
| ErrGettingTicket (cause : Error)            (* "getting ticket: %w" *)
| ErrGeneratingSdr (cause : Error)            (* "generating sdr: %w" *)
| ErrUpdatingPipeline (cause : Error)         (* "store sdr success: updating pipeline: %w" *)
| ErrUpdatedRows (n : Z)                      (* "store sdr success: updated %d rows" *)
| ErrGettingChainHead (cause : Error)         (* "getting chain head: %w" *)
| ErrMarshalingMinerAddress (cause : Error)   (* "marshaling miner address: %w" *)
| ErrGettingRandomness (cause : Error)        (* "getting randomness from tickets: %w" *)
| ErrGettingSectorRef (cause : Error)         (* "getting sector ref: %w" *)
| ErrExpected1SectorRef (got : nat).          (* "expected 1 sector ref, got %d" *)

(** What a call does: it returns a value, returns an error, or panics. *)
Inductive Res (A : Type) : Type :=
| Ok (a : A)
| Err (e : Error)
| Panic (p : PanicKind).
Arguments Ok {A} a.
Arguments Err {A} e.
Arguments Panic {A} p.

(** [xerrors.Errorf(".. %w", err)] around a fallible call. *)
Definition wrap_err {A} (ctx : Error -> Error) (r : Res A) : Res A :=
  match r with
  | Ok a => Ok a
  | Err e => Err (ctx e)
  | Panic p => Panic p
  end.

(** ** Machine integers *)

(** Conversion to [uint64], and the wrap-around of its arithmetic. *)
Definition u64 (x : Z) : Z := x mod 2 ^ 64.

(** Conversion to [int64], and the wrap-around of its arithmetic. *)
Definition i64 (x : Z) : Z := (x + 2 ^ 63) mod 2 ^ 64 - 2 ^ 63.

(** [math/bits.OnesCount64] and [math/bits.TrailingZeros64]. *)
Fixpoint pos_ones (p : positive) : nat :=
  match p with
  | xH => 1
  | xO q => pos_ones q
  | xI q => S (pos_ones q)
  end.

Fixpoint pos_trailing_zeros (p : positive) : Z :=
  match p with
  | xO q => 1 + pos_trailing_zeros q
  | _ => 0
  end.

Definition OnesCount64 (x : Z) : nat :=
  match x with
  | Zpos p => pos_ones p
  | _ => O
  end.

Definition TrailingZeros64 (x : Z) : Z :=
  match x with
  | Zpos p => pos_trailing_zeros p
  | _ => 64
  end.

(** ** Piece sizes ([go-state-types/abi]) *)

Module abi.

(** [func (s UnpaddedPieceSize) Padded() PaddedPieceSize]: [s + s/127]. *)
Definition Padded (s : Z) : Z := u64 (s + s / 127).

(** [func (s PaddedPieceSize) Unpadded() UnpaddedPieceSize]: [s - s/128]. *)
Definition Unpadded (s : Z) : Z := u64 (s - s / 128).

End abi.

(** ** Alignment padding ([lotus/storage/sealer/ffiwrapper]) *)

Module ffiwrapper.

(** The loop of [GetRequiredPadding]: [n] times, take the lowest set bit
    of [toFill] as the next pad piece, clear it, add it to [sum]. *)
Fixpoint pad_loop (n : nat) (toFill : Z) (padPieces : list Z) (sum : Z)
  : list Z * Z :=
  match n with
  | O => (padPieces, sum)
  | S n' =>
      let next := TrailingZeros64 toFill in
      let psize := u64 (Z.shiftl 1 next) in
      pad_loop n' (Z.lxor toFill psize) (padPieces ++ [psize]) (u64 (sum + psize))
  end.

(** [GetRequiredPadding(oldLength, newPieceLength)]: the pad pieces that
    bring [oldLength] to a multiple of [newPieceLength], and their sum.
    [toFill := uint64(-oldLength % newPieceLength)] divides by the new
    piece's length, which panics when that is zero. *)
Definition GetRequiredPadding (oldLength newPieceLength : Z)
  : Res (list Z * Z) :=
  if newPieceLength =? 0 then Panic IntegerDivideByZero
  else
    let toFill := u64 (- oldLength) mod newPieceLength in
    Ok (pad_loop (OnesCount64 toFill) toFill [] 0).

End ffiwrapper.

(** ** Trailing fillers ([curio/lib/filler]) *)

Module filler.

(** One pass of the greedy decomposition: the admissible filler sizes
    are the unpadded sizes of the padded powers of two
    [2^(k+6), ..., 2^7], tried from the largest down; each is taken when
    it still fits.  Returns the fillers and what is left over. *)
Fixpoint greedy (k : nat) (rem : Z) : list Z * Z :=
  match k with
  | O => ([], rem)
  | S k' =>
      let f := abi.Unpadded (2 ^ (Z.of_nat k' + 7)) in
      if f <=? rem
      then let '(fs, rest) := greedy k' (rem - f) in (f :: fs, rest)
      else greedy k' rem
  end.

(** Modelled from the spec: [filler.FillersFromRem] of [lib/filler],
    which is not among the sources.  The remainder is decomposed into
    power-of-two filler sizes, greedily from the largest admissible
    power of two downward; the decomposition must match the remainder
    exactly and fails with [InvalidLayout] when it cannot: on a negative
    remainder (as a 64-bit value: the sign bit is set, the image of a
    negative difference) or on one that is not aligned (something is
    left over).  The results are unpadded sizes, as [Do] pads them. *)
Definition FillersFromRem (rem : Z) : Res (list Z) :=
  if 2 ^ 63 <=? rem then Err ErrInvalidLayout
  else
    let '(fs, rest) := greedy 57 rem in
    if rest =? 0 then Ok fs else Err ErrInvalidLayout.

End filler.

(** ** Commitments and piece infos *)

(** Content identifiers, symbolically: one parsed from its text
    ([cid.Parse]), the well-known commitment of an all-zero piece of a
    given unpadded size, and an unsealed-sector commitment over pieces of
    the given sizes. *)
Inductive Cid : Type :=
| CidOf (text : string)
| ZeroComm (unpadded : Z)
| UnsealedCid (proof : Z) (sizes : list Z).

Module zerocomm.
(** [zerocomm.ZeroPieceCommitment(sz abi.UnpaddedPieceSize) cid.Cid] *)
Definition ZeroPieceCommitment (sz : Z) : Cid := ZeroComm sz.
End zerocomm.

(** [abi.PieceInfo] *)
Record PieceInfo : Type := mkPieceInfo {
  Size : Z;          (* abi.PaddedPieceSize *)
  PieceCID : Cid
}.

(** The total padded length of a piece-info sequence. *)
Definition total_padded (infos : list PieceInfo) : Z :=
  fold_right (fun i acc => Size i + acc) 0 infos.

(** ** The two tables *)

(** A row of [sectors_sdr_pipeline], with the columns the task names. *)
Record PipelineRow : Type := mkPipelineRow {
  sp_id : Z;
  sector_number : Z;
  reg_seal_proof : Z;
  task_id_sdr : option Z;             (* NULL when no attempt is in flight *)
  after_sdr : bool;
  ticket_epoch : option Z;
  ticket_value : option (list Byte.byte)
}.

(** A row of [sectors_sdr_initial_pieces]. *)
Record InitialPieceRow : Type := mkInitialPieceRow {
  ip_sp_id : Z;
  ip_sector_number : Z;
  piece_index : Z;
  piece_cid : string;
  piece_size : Z;
  data_raw_size : option Z            (* nullable column *)
}.

(** The struct [Do] scans a pipeline row into. *)
Record SectorParams : Type := mkSectorParams {
  SpID : Z;
  SectorNumber : Z;
  RegSealProof : Z
}.

(** The struct [Do] scans a piece row into; [DataRawSize] is [*int64]. *)
Record Piece : Type := mkPiece {
  PieceIndex : Z;
  PieceCIDText : string;
  PieceSize : Z;
  DataRawSize : option Z
}.

(** ** Chain types *)

(** [crypto.DomainSeparationTag] *)
Inductive DomainSeparationTag : Type :=
| DomainSeparationTag_TicketProduction
| DomainSeparationTag_ElectionProofProduction
| DomainSeparationTag_WinningPoStChallengeSeed
| DomainSeparationTag_WindowedPoStChallengeSeed
| DomainSeparationTag_SealRandomness
| DomainSeparationTag_InteractiveSealChallengeSeed
| DomainSeparationTag_WindowedPoStDeadlineAssignment
| DomainSeparationTag_MarketDealCronSeed
| DomainSeparationTag_PoStChainCommit
| DomainSeparationTag_EvmPrevRandao.

Definition TipSetKey : Type := list Cid.

(** What the task reads of a [*types.TipSet]. *)
Record TipSet : Type := mkTipSet {
  Height : Z;           (* abi.ChainEpoch, an int64 *)
  Key : TipSetKey
}.

(** [address.Address], as far as the task makes one. *)
Inductive Address : Type :=
| Undef
| IDAddress (id : Z).

(** [storiface.SectorRef] with its [abi.SectorID] flattened. *)
Record SectorRef : Type := mkSectorRef {
  Miner : Z;            (* abi.ActorID *)
  Number : Z;           (* abi.SectorNumber *)
  ProofType : Z
}.

(** ** Collaborators *)

(** The statements [Do] sends to the database. *)
Inductive Statement : Type :=
| SelectSectorParams
| SelectPieces
| UpdatePipeline.

(** The calls that leave the task, in the order they are made. *)
Inductive Call : Type :=
| CallSelect (stmt : Statement) (args : list Z)
| CallGenerateUnsealedCID (proof : Z) (infos : list PieceInfo)
| CallChainHead
| CallStateGetRandomnessFromTickets
    (tag : DomainSeparationTag) (epoch : Z) (entropy : list Byte.byte)
    (tsk : TipSetKey)
| CallGenerateSDR (taskID : Z) (sref : SectorRef) (ticket : list Byte.byte)
    (commd : Cid)
| CallExec (stmt : Statement) (spID sectorNumber ticketEpoch : Z)
    (ticket : list Byte.byte)
| CallStillOwned.

(** Everything outside the task.  Each collaborator returns, returns an
    error, or panics.  [db_fault] is [Ok tt] when the database runs the
    statement, and otherwise the error or the panic with which the call
    ends instead.  [meanwhile] is what the other sessions have committed
    to the pipeline table between the loads of the task and its final
    update, which comes after the encoding: the update runs on the table
    as it is at that moment. *)
Record Env : Type := mkEnv {
  db_fault : Statement -> Res unit;
  SectorSize : Z -> Res Z;                       (* RegisteredSealProof.SectorSize *)
  cid_Parse : string -> Res Cid;                 (* cid.Parse *)
  GenerateUnsealedCID : Z -> list PieceInfo -> Res Cid;   (* nonffi *)
  NewIDAddress : Z -> Res Address;               (* address.NewIDAddress *)
  MarshalCBOR : Address -> Res (list Byte.byte); (* maddr.MarshalCBOR(buf) *)
  SealRandomnessLookback : Z;                    (* policy.SealRandomnessLookback *)
  ChainHead : Res TipSet;                        (* SDRAPI.ChainHead *)
  StateGetRandomnessFromTickets :
    DomainSeparationTag -> Z -> list Byte.byte -> TipSetKey ->
    Res (list Byte.byte);                        (* SDRAPI *)
  GenerateSDR : Z -> SectorRef -> list Byte.byte -> Cid -> Res unit;
                                                 (* ffi.SealCalls.GenerateSDR *)
  meanwhile : list PipelineRow -> list PipelineRow
}.

(** ** State and the task monad *)

(** The state the task shares with the rest of the system: the two
    tables. *)
Record World : Type := mkWorld {
  sectors_sdr_pipeline : list PipelineRow;
  sectors_sdr_initial_pieces : list InitialPieceRow
}.

(** A run of a computation: the calls it made, in order, the world it
    left, and whether it returned, failed or panicked. *)
Record Run (A : Type) : Type := mkRun {
  trace : list Call;
  final : World;
  result : Res A
}.
Arguments mkRun {A} trace final result.
Arguments trace {A} r.
Arguments final {A} r.
Arguments result {A} r.

Definition M (A : Type) : Type := World -> Run A.

Definition ret {A} (a : A) : M A := fun w => mkRun [] w (Ok a).

(** [r], after the calls [t]. *)
Definition after {A} (t : list Call) (r : Run A) : Run A :=
  match r with
  | mkRun t' w res => mkRun (t ++ t') w res
  end.

Definition bind {A B} (m : M A) (k : A -> M B) : M B :=
  fun w =>
    match m w with
    | mkRun t w' (Ok a) => after t (k a w')
    | mkRun t w' (Err e) => mkRun t w' (Err e)
    | mkRun t w' (Panic p) => mkRun t w' (Panic p)
    end.

Definition fail {A} (e : Error) : M A := fun w => mkRun [] w (Err e).

(** A pure library call, made inside the task. *)
Definition lift {A} (r : Res A) : M A := fun w => mkRun [] w r.

(** [if err != nil { return false, xerrors.Errorf(".. %w", err) }] *)
Definition wrapM {A} (ctx : Error -> Error) (m : M A) : M A :=
  fun w =>
    match m w with
    | mkRun t w' res => mkRun t w' (wrap_err ctx res)
    end.

(** Record a call that leaves the task. *)
Definition call (c : Call) : M unit := fun w => mkRun [c] w (Ok tt).

Notation "x <- c1 ;; c2" := (bind c1 (fun x => c2))
  (at level 61, c1 at next level, right associativity).
Notation "' pat <- c1 ;; c2" :=
  (bind c1 (fun x => match x with pat => c2 end))
  (at level 61, pat pattern, c1 at next level, right associativity).
Notation "c1 ;;; c2" := (bind c1 (fun _ => c2))
  (at level 61, right associativity).

(** [xs[i]] *)
Definition index {A} (xs : list A) (i : nat) : Res A :=
  match nth_error xs i with
  | Some x => Ok x
  | None => Panic IndexOutOfRange
  end.

(** ** The statements of the task on the two tables *)

Module db.

Definition for_task (taskID : Z) (r : PipelineRow) : bool :=
  match task_id_sdr r with
  | Some t => t =? taskID
  | None => false
  end.

Definition for_sector (spID sectorNumber : Z) (r : PipelineRow) : bool :=
  (sp_id r =? spID) && (sector_number r =? sectorNumber).

Definition piece_of_sector (spID sectorNumber : Z) (r : InitialPieceRow)
  : bool :=
  (ip_sp_id r =? spID) && (ip_sector_number r =? sectorNumber).

(** [ORDER BY piece_index ASC] *)
Fixpoint insert_by_index (r : InitialPieceRow) (rs : list InitialPieceRow)
  : list InitialPieceRow :=
  match rs with
  | [] => [r]
  | x :: xs =>
      if piece_index r <=? piece_index x then r :: x :: xs
      else x :: insert_by_index r xs
  end.

Definition order_by_piece_index (rs : list InitialPieceRow)
  : list InitialPieceRow :=
  fold_right insert_by_index [] rs.

Definition scan_params (r : PipelineRow) : SectorParams :=
  mkSectorParams (sp_id r) (sector_number r) (reg_seal_proof r).

Definition scan_piece (r : InitialPieceRow) : Piece :=
  mkPiece (piece_index r) (piece_cid r) (piece_size r) (data_raw_size r).

(** [SELECT sp_id, sector_number, reg_seal_proof
     FROM sectors_sdr_pipeline WHERE task_id_sdr = $1] *)
Definition select_sector_params (env : Env) (taskID : Z)
  : M (list SectorParams) :=
  call (CallSelect SelectSectorParams [taskID]) ;;;
  fun w =>
    match db_fault env SelectSectorParams with
    | Err e => mkRun [] w (Err e)
    | Panic p => mkRun [] w (Panic p)
    | Ok _ =>
        mkRun [] w
          (Ok (map scan_params
                 (filter (for_task taskID) (sectors_sdr_pipeline w))))
    end.

(** [SELECT piece_index, piece_cid, piece_size, data_raw_size
     FROM sectors_sdr_initial_pieces
     WHERE sp_id = $1 AND sector_number = $2 ORDER BY piece_index ASC] *)
Definition select_pieces (env : Env) (spID sectorNumber : Z)
  : M (list Piece) :=
  call (CallSelect SelectPieces [spID; sectorNumber]) ;;;
  fun w =>
    match db_fault env SelectPieces with
    | Err e => mkRun [] w (Err e)
    | Panic p => mkRun [] w (Panic p)
    | Ok _ =>
        mkRun [] w
          (Ok (map scan_piece
                 (order_by_piece_index
                    (filter (piece_of_sector spID sectorNumber)
                       (sectors_sdr_initial_pieces w)))))
    end.

Definition store_success (ticketEpoch : Z) (ticket : list Byte.byte)
    (r : PipelineRow) : PipelineRow :=
  mkPipelineRow (sp_id r) (sector_number r) (reg_seal_proof r)
    None true (Some ticketEpoch) (Some ticket).

(** [UPDATE sectors_sdr_pipeline
     SET after_sdr = true, ticket_epoch = $3, ticket_value = $4,
         task_id_sdr = NULL
     WHERE sp_id = $1 AND sector_number = $2], on the table as the
    other sessions have left it; returns the number of rows it
    changed. *)
Definition exec_store_success (env : Env)
    (spID sectorNumber ticketEpoch : Z) (ticket : list Byte.byte) : M Z :=
  call (CallExec UpdatePipeline spID sectorNumber ticketEpoch ticket) ;;;
  fun w =>
    match db_fault env UpdatePipeline with
    | Err e => mkRun [] w (Err e)
    | Panic p => mkRun [] w (Panic p)
    | Ok _ =>
        let rows := meanwhile env (sectors_sdr_pipeline w) in
        let hit := for_sector spID sectorNumber in
        mkRun []
          (mkWorld
             (map (fun r => if hit r then store_success ticketEpoch ticket r
                            else r)
                rows)
             (sectors_sdr_initial_pieces w))
          (Ok (Z.of_nat (length (filter hit rows))))
    end.

End db.

(** ** The task *)

(** The state of the layout loop of [Do]: the running unpadded offset and
    the piece infos appended so far. *)
Definition Layout : Type := (Z * list PieceInfo)%type.

Definition zero_piece_info (pad : Z) : PieceInfo :=
  mkPieceInfo pad (zerocomm.ZeroPieceCommitment (abi.Unpadded pad)).

Definition filler_piece_info (fil : Z) : PieceInfo :=
  mkPieceInfo (abi.Padded fil) (zerocomm.ZeroPieceCommitment fil).

(** One iteration of [for _, p := range pieces] (lines 115-136). *)
Definition layout_piece (env : Env) (st : Layout) (p : Piece) : Res Layout :=
  let '(offset, pieceInfos) := st in
  match cid_Parse env (PieceCIDText p) with
  | Err e => Err (ErrParsingPieceCid e)
  | Panic k => Panic k
  | Ok c =>
      match ffiwrapper.GetRequiredPadding
              (abi.Padded offset) (u64 (PieceSize p)) with
      | Err e => Err e
      | Panic k => Panic k
      | Ok (pads, padLength) =>
          let offset := u64 (offset + abi.Unpadded padLength) in
          let pieceInfos := pieceInfos ++ map zero_piece_info pads in
          let pieceInfos :=
            pieceInfos ++ [mkPieceInfo (u64 (PieceSize p)) c] in
          match DataRawSize p with
          | None => Panic NilDereference
          | Some raw => Ok (u64 (offset + u64 raw), pieceInfos)
          end
      end
  end.

(** The whole loop, from a given state. *)
Fixpoint layout_pieces (env : Env) (st : Layout) (pieces : list Piece)
  : Res Layout :=
  match pieces with
  | [] => Ok st
  | p :: rest =>
      match layout_piece env st p with
      | Ok st' => layout_pieces env st' rest
      | Err e => Err e
      | Panic k => Panic k
      end
  end.

(** The commitment computation of [Do] (lines 109-155): the layout of
    the pieces, the trailing fillers and the aggregation, or the
    zero-piece commitment of the sector when there is no piece. *)
Definition Do_commd (env : Env) (proof ssize : Z) (pieces : list Piece)
  : M Cid :=
  if (0 <? length pieces)%nat then
    ' (offset, pieceInfos) <- lift (layout_pieces env (0, []) pieces) ;;
    fillerSize <-
      lift (wrap_err ErrFinalPadding
              (filler.FillersFromRem (u64 (abi.Unpadded ssize - offset)))) ;;
    let pieceInfos := pieceInfos ++ map filler_piece_info fillerSize in
    call (CallGenerateUnsealedCID proof pieceInfos) ;;;
    lift (wrap_err ErrComputingCommD
            (GenerateUnsealedCID env proof pieceInfos))
  else
    ret (zerocomm.ZeroPieceCommitment (abi.Unpadded ssize)).

(** [func (s *SDRTask) getTicket(ctx, maddr)] *)
Definition getTicket (env : Env) (maddr : Address)
  : M (list Byte.byte * Z) :=
  call CallChainHead ;;;
  ts <- lift (wrap_err ErrGettingChainHead (ChainHead env)) ;;
  let ticketEpoch := i64 (Height ts - SealRandomnessLookback env) in
  buf <- lift (wrap_err ErrMarshalingMinerAddress (MarshalCBOR env maddr)) ;;
  call (CallStateGetRandomnessFromTickets
          DomainSeparationTag_SealRandomness ticketEpoch buf (Key ts)) ;;;
  rand <-
    lift (wrap_err ErrGettingRandomness
            (StateGetRandomnessFromTickets env
               DomainSeparationTag_SealRandomness ticketEpoch buf (Key ts))) ;;
  ret (rand, ticketEpoch).

(** [s.sc.GenerateSDR(ctx, taskID, sref, ticket, commd)] *)
Definition generate_sdr (env : Env) (taskID : Z) (sref : SectorRef)
    (ticket : list Byte.byte) (commd : Cid) : M unit :=
  call (CallGenerateSDR taskID sref ticket commd) ;;;
  lift (GenerateSDR env taskID sref ticket commd).

(** The end of [Do] (lines 157-205): the ticket, the encoding and the
    final update. *)
Definition Do_finish (env : Env) (taskID : Z) (sectorParams : SectorParams)
    (commd : Cid) : M bool :=
  let sref :=
    mkSectorRef (u64 (SpID sectorParams)) (u64 (SectorNumber sectorParams))
      (RegSealProof sectorParams) in
  maddr <-
    lift (wrap_err ErrGettingMinerAddress
            (NewIDAddress env (u64 (SpID sectorParams)))) ;;
  ' (ticket, ticketEpoch) <- wrapM ErrGettingTicket (getTicket env maddr) ;;
  wrapM ErrGeneratingSdr (generate_sdr env taskID sref ticket commd) ;;;
  n <-
    wrapM ErrUpdatingPipeline
      (db.exec_store_success env (SpID sectorParams)
         (SectorNumber sectorParams) ticketEpoch ticket) ;;
  if negb (n =? 1) then fail (ErrUpdatedRows n) else ret true.

(** [func (s *SDRTask) Do(taskID, stillOwned) (done bool, err error)]:
    the two loads and the sector size (lines 67-107), then the commitment
    and the end.  The function takes [stillOwned] and never calls it. *)
Definition Do (env : Env) (taskID : Z) (stillOwned : unit -> bool) : M bool :=
  sectorParamsArr <-
    wrapM ErrGettingSectorParams (db.select_sector_params env taskID) ;;
  if negb (length sectorParamsArr =? 1)%nat
  then fail (ErrExpected1SectorParams (length sectorParamsArr))
  else
    sectorParams <- lift (index sectorParamsArr 0) ;;
    pieces <-
      wrapM ErrGettingPieces
        (db.select_pieces env (SpID sectorParams) (SectorNumber sectorParams)) ;;
    ssize <-
      lift (wrap_err ErrGettingSectorSize
              (SectorSize env (RegSealProof sectorParams))) ;;
    commd <- Do_commd env (RegSealProof sectorParams) ssize pieces ;;
    Do_finish env taskID sectorParams commd.

(** [func (s *SDRTask) CanAccept(ids, engine)], which returns a pointer
    to a [harmonytask.TaskID] and an error: [Ok (Some id)] is a pointer to
    [id] with a nil error, [Ok None] a nil pointer with a nil error. *)
Definition CanAccept {TaskEngine : Type} (ids : list Z) (engine : TaskEngine)
  : Res (option Z) :=
  match index ids 0 with
  | Ok id => Ok (Some id)
  | Err e => Err e
  | Panic k => Panic k
  end.

(** [func (s *SDRTask) taskToSector(id)] (lines 276-289).  Its statement
    is the first statement of [Do]; the [ffi.SectorRef] it scans has the
    three columns of [SectorParams]. *)
Definition taskToSector (env : Env) (id : Z) : M SectorParams :=
  refs <- wrapM ErrGettingSectorRef (db.select_sector_params env id) ;;
  if negb (length refs =? 1)%nat
  then fail (ErrExpected1SectorRef (length refs))
  else lift (index refs 0).

(** [func (s *SDRTask) GetSpid(db, taskID) string] (lines 264-272):
    [QueryRow] keeps the first row of
    [SELECT sp_id FROM sectors_sdr_pipeline WHERE task_id_sdr = $1],
    [Scan] writes it to a string; any error is logged and answered with
    the empty string.  [query_fault] is the error of the database, if
    any, and [scan_text] the conversion [Scan] makes, [None] when it
    returns an error. *)
Definition GetSpid (query_fault : option Error)
    (scan_text : Z -> option string) (w : World) (taskID : Z) : string :=
  match query_fault with
  | Some _ => EmptyString
  | None =>
      match filter (db.for_task taskID) (sectors_sdr_pipeline w) with
      | [] => EmptyString                          (* no rows in result set *)
      | r :: _ =>
          match scan_text (sp_id r) with
          | Some spid => spid
          | None => EmptyString
          end
      end
  end.

(** ** The resources the task declares *)

(** [storiface.SectorFileType] and [storiface.PathType], as far as the
    task names them. *)
Inductive SectorFileType : Type := FTNone | FTCache.
Inductive PathType : Type := PathStorage | PathSealing.

(** What [TypeDetails] asks of [SealCalls.Storage]: the file types to
    allocate and to keep, the sector size and the kind of path. *)
Record StorageClaim : Type := mkStorageClaim {
  alloc : SectorFileType;
  existing : SectorFileType;
  claim_ssize : Z;                  (* abi.SectorSize *)
  path_type : PathType
}.

(** [resources.Resources] *)
Record Resources : Type := mkResources {
  Cpu : Z;
  Gpu : Z;
  Ram : Z;
  Storage : StorageClaim
}.

(** [harmonytask.TaskTypeDetails], as far as the task fills it;
    [Follows] is nil. *)
Record TaskTypeDetails : Type := mkTaskTypeDetails {
  Max : Z;
  Name : string;
  Cost : Resources;
  MaxFailures : Z
}.

(** The package variable [IsDevnet]. *)
Record Globals : Type := mkGlobals { IsDevnet : bool }.

(** [var IsDevnet = build.BlockDelaySecs < 30] *)
Definition initial_globals (BlockDelaySecs : Z) : Globals :=
  mkGlobals (BlockDelaySecs <? 30).

(** [func SetDevnet(value bool)] *)
Definition SetDevnet (value : bool) (g : Globals) : Globals :=
  mkGlobals value.

(** [func GetDevnet() bool] *)
Definition GetDevnet (g : Globals) : bool := IsDevnet g.

(** [SDRTask], as far as [TypeDetails] reads it: the collaborators are in
    [Env]. *)
Record SDRTask : Type := mkSDRTask { max : Z }.

(** [func NewSDRTask(api, db, sp, sc, maxSDR) *SDRTask] *)
Definition NewSDRTask (maxSDR : Z) : SDRTask := mkSDRTask maxSDR.

(** [func (s *SDRTask) TypeDetails() harmonytask.TaskTypeDetails] *)
Definition TypeDetails (s : SDRTask) (g : Globals) : TaskTypeDetails :=
  let ssize := Z.shiftl 32 30 in
  let ssize := if IsDevnet g then Z.shiftl 2 20 else ssize in
  let res :=
    mkTaskTypeDetails (max s) "SDR"
      (mkResources 4 0 (Z.shiftl 64 30 + Z.shiftl 256 20)
         (mkStorageClaim FTCache FTNone ssize PathSealing))
      2 in
  if IsDevnet g then
    mkTaskTypeDetails (Max res) (Name res)
      (mkResources 1 (Gpu (Cost res)) (Z.shiftl 1 30) (Storage (Cost res)))
      (MaxFailures res)
  else res.

(** ** What an execution of [Do] starts from *)

(** The two loads and the sector size succeed: the database answers both
    statements, exactly the row [params] is bound to the task, [pieces]
    are the piece records of its sector in index order, and the proof
    type has sector size [ssize]. *)
Definition loaded (env : Env) (taskID : Z) (w : World)
    (params : SectorParams) (pieces : list Piece) (ssize : Z) : Prop :=
  db_fault env SelectSectorParams = Ok tt /\
  map db.scan_params
    (filter (db.for_task taskID) (sectors_sdr_pipeline w)) = [params] /\
  db_fault env SelectPieces = Ok tt /\
  map db.scan_piece
    (db.order_by_piece_index
       (filter (db.piece_of_sector (SpID params) (SectorNumber params))
          (sectors_sdr_initial_pieces w))) = pieces /\
  SectorSize env (RegSealProof params) = Ok ssize.

(** The errors [Do] returns before the final update is sent: from the
    record load up to and including the encoding. *)
Definition before_commit (e : Error) : bool :=
  match e with
  | ErrGettingSectorParams _ | ErrExpected1SectorParams _
  | ErrGettingPieces _ | ErrGettingSectorSize _
  | ErrParsingPieceCid _ | ErrFinalPadding _ | ErrComputingCommD _
  | ErrGettingMinerAddress _ | ErrGettingTicket _ | ErrGeneratingSdr _ => true
  | _ => false
  end.

Definition is_exec (c : Call) : bool :=
  match c with CallExec _ _ _ _ _ => true | _ => false end.

Definition is_aggregation (c : Call) : bool :=
  match c with CallGenerateUnsealedCID _ _ => true | _ => false end.

Definition is_encoding (c : Call) : bool :=
  match c with CallGenerateSDR _ _ _ _ => true | _ => false end.

Definition is_ownership_check (c : Call) : bool :=
  match c with CallStillOwned => true | _ => false end.

(** The columns that identify a row of the pipeline table. *)
Definition sector_of (r : PipelineRow) : Z * Z * Z :=
  (sp_id r, sector_number r, reg_seal_proof r).

(** The errors of the final update. *)
Definition from_commit (e : Error) : bool :=
  match e with
  | ErrUpdatingPipeline _ | ErrUpdatedRows _ => true
  | _ => false
  end.

(** What the layout loop reads of a piece record: everything but its
    index. *)
Definition without_index (p : Piece) : string * Z * option Z :=
  (PieceCIDText p, PieceSize p, DataRawSize p).

(** The sum of a list of sizes. *)
Definition sum_list (xs : list Z) : Z := fold_right Z.add 0 xs.

(** A piece record that fills its padded size: the padded size is a
    multiple of 128, not zero, and the raw size is its unpadded size. *)
Definition full_piece (p : Piece) : bool :=
  match DataRawSize p with
  | Some raw =>
      negb (u64 (PieceSize p) =? 0) &&
      (u64 (PieceSize p) mod 128 =? 0) &&
      (u64 raw =? abi.Unpadded (u64 (PieceSize p)))
  | None => false
  end.

(** The padded sizes that the piece records declare, added up. *)
Definition declared_size (pieces : list Piece) : Z :=
  sum_list (map (fun p => u64 (PieceSize p)) pieces).

(** The order of [ORDER BY piece_index ASC]. *)
Definition by_index (r1 r2 : InitialPieceRow) : Prop :=
  piece_index r1 <= piece_index r2.

(** A filler of a layout: its padded size is a power of two and its
    commitment is the zero-piece commitment of its unpadded size. *)
Definition is_filler (i : PieceInfo) : Prop :=
  (exists j, 0 <= j /\ Size i = 2 ^ j) /\
  PieceCID i = zerocomm.ZeroPieceCommitment (abi.Unpadded (Size i)).

(** A layout of piece records: the records in their order, each with
    its declared padded size and its parsed commitment, with fillers
    anywhere between them. *)
Inductive interleaved (env : Env) : list Piece -> list PieceInfo -> Prop :=
| interleaved_nil : interleaved env [] []
| interleaved_filler (i : PieceInfo) (ps : list Piece) (l : list PieceInfo) :
    is_filler i -> interleaved env ps l -> interleaved env ps (i :: l)
| interleaved_piece (p : Piece) (c : Cid) (ps : list Piece)
    (l : list PieceInfo) :
    cid_Parse env (PieceCIDText p) = Ok c ->
    interleaved env ps l ->
    interleaved env (p :: ps) (mkPieceInfo (u64 (PieceSize p)) c :: l).

(** ** A concrete instance: a devnet with 2KiB sectors *)

Module Sample.

Definition sector_size (proof : Z) : Res Z :=
  if proof =? 0 then Ok 2048
  else if proof =? 1 then Ok 8388608
  else Err (ErrExternal "unsupported proof type").

Definition parse (text : string) : Res Cid :=
  if String.eqb text "" then Err (ErrExternal "invalid cid")
  else Ok (CidOf text).

Definition aggregate (proof : Z) (infos : list PieceInfo) : Res Cid :=
  Ok (UnsealedCid proof (map Size infos)).

Definition id_address (id : Z) : Res Address :=
  if id <? 2 ^ 63 then Ok (IDAddress id)
  else Err (ErrExternal "IDs must be less than 2^63").

Definition head : TipSet := mkTipSet 5000 [CidOf "head"].

Definition env : Env :=
  mkEnv (fun _ => Ok tt) sector_size parse aggregate id_address
    (fun _ => Ok [Byte.x42; Byte.x00; Byte.xe8; Byte.x07])
    900 (Ok head)
    (fun _ _ _ _ => Ok [Byte.x07])
    (fun _ _ _ _ => Ok tt)
    (fun rows => rows).

(** The row of sector 7 of miner 1000, bound to task 42. *)
Definition pending : PipelineRow :=
  mkPipelineRow 1000 7 0 (Some 42) false None None.

(** One sector bound to task 42, no piece. *)
Definition empty_sector : World := mkWorld [pending] [].

(** A full-sector piece whose index is 5. *)
Definition one_piece_index_5 : World :=
  mkWorld [pending] [mkInitialPieceRow 1000 7 5 "p5" 2048 (Some 2032)].

(** Two half-sector pieces; the data of the first is 889 bytes, less
    than the 1016 bytes its padded size holds. *)
Definition short_first_piece : World :=
  mkWorld [pending]
    [mkInitialPieceRow 1000 7 0 "p0" 1024 (Some 889);
     mkInitialPieceRow 1000 7 1 "p1" 1024 (Some 1016)].

(** Two half-sector pieces that fill their padded sizes. *)
Definition two_halves : World :=
  mkWorld [pending]
    [mkInitialPieceRow 1000 7 1 "p1" 1024 (Some 1016);
     mkInitialPieceRow 1000 7 0 "p0" 1024 (Some 1016)].

(** The same two pieces, stored in the other order, among the pieces
    of another sector. *)
Definition two_halves_reordered : World :=
mkWorld [pending]
  [mkInitialPieceRow 1000 8 0 "q0" 2048 (Some 2032);
   mkInitialPieceRow 1000 7 0 "p0" 1024 (Some 1016);
   mkInitialPieceRow 1000 7 1 "p1" 1024 (Some 1016)].

(** A quarter-sector piece followed by a half-sector piece. *)
Definition small_then_large : World :=
mkWorld [pending]
  [mkInitialPieceRow 1000 7 0 "p0" 512 (Some 508);
   mkInitialPieceRow 1000 7 1 "p1" 1024 (Some 1016)].

(** A half-sector piece followed by a full-sector piece: too much. *)
Definition overflowing : World :=
  mkWorld [pending]
    [mkInitialPieceRow 1000 7 0 "p0" 1024 (Some 1016);
     mkInitialPieceRow 1000 7 1 "p1" 2048 (Some 2032)].

(** A piece whose [data_raw_size] is NULL. *)
Definition null_raw_size : World :=
  mkWorld [pending] [mkInitialPieceRow 1000 7 0 "p0" 2048 None].

(** The sector appears twice in the pipeline table, once bound to
    task 42. *)
Definition duplicated : World :=
  mkWorld
    [pending; mkPipelineRow 1000 7 0 (Some 43) false None None]
    [].

(** The same collaborators, with the chain API down. *)
Definition offline : Env :=
mkEnv (fun _ => Ok tt) sector_size parse aggregate id_address
  (fun _ => Ok [Byte.x42; Byte.x00; Byte.xe8; Byte.x07])
  900 (Err (ErrExternal "api down"))
  (fun _ _ _ _ => Ok [Byte.x07])
  (fun _ _ _ _ => Ok tt)
  (fun rows => rows).

(** The same collaborators, while another session deletes the rows of
    sector 7 of miner 1000 before the final update runs. *)
Definition row_deleted : Env :=
mkEnv (fun _ => Ok tt) sector_size parse aggregate id_address
  (fun _ => Ok [Byte.x42; Byte.x00; Byte.xe8; Byte.x07])
  900 (Ok head)
  (fun _ _ _ _ => Ok [Byte.x07])
  (fun _ _ _ _ => Ok tt)
  (filter (fun r => negb (db.for_sector 1000 7 r))).


(** Three rows bound to task 42, of the miners 1002, 1000 and 1001 in
    the order of the table, after a row bound to another task. *)
Definition several_bound : World :=
mkWorld
  [mkPipelineRow 999 1 0 (Some 41) false None None;
   mkPipelineRow 1002 3 0 (Some 42) false None None;
   mkPipelineRow 1000 7 0 (Some 42) false None None;
   mkPipelineRow 1001 9 0 (Some 42) false None None]
  [].



(** The decimal text of an integer column. *)
Definition scan_decimal (z : Z) : option string :=
  Some (NilZero.string_of_int (Z.to_int z)).

Definition owned (_ : unit) : bool := true.
Definition lost (_ : unit) : bool := false.

End Sample.

(** * Properties *)

(** ** Machine integers *)

Lemma u64_small (x : Z) : 0 <= x < 2 ^ 64 -> u64 x = x.
Proof. intros H. unfold u64. now apply Z.mod_small. Qed.

Lemma u64_range (x : Z) : 0 <= u64 x < 2 ^ 64.
Proof. unfold u64. apply Z.mod_pos_bound. reflexivity. Qed.

Lemma i64_small (x : Z) : - 2 ^ 63 <= x < 2 ^ 63 -> i64 x = x.
Proof.
  intros H. unfold i64.
  rewrite Z.mod_small by (change (2 ^ 64) with (2 ^ 63 + 2 ^ 63); lia).
  lia.
Qed.

(** ** Admission *)

(** C9, as the code has it: on a non-empty candidate list [CanAccept]
    returns, without an error, exactly one identifier, the first of the
    list, which is a member of the list. *)
Theorem CanAccept_first (TaskEngine : Type) (ids : list Z)
    (engine : TaskEngine) :
  ids <> [] ->
  exists id,
    CanAccept ids engine = Ok (Some id) /\
    nth_error ids 0 = Some id /\
    In id ids.
Proof.
  destruct ids as [|id rest]; intros Hne.
  - contradiction.
  - exists id. repeat split. now left.
Qed.

Lemma CanAccept_first_witness :
  [42; 43] <> [] /\
  exists id,
    CanAccept [42; 43] tt = Ok (Some id) /\
    nth_error [42; 43] 0 = Some id /\
    In id [42; 43].
Proof.
  split.
  - discriminate.
  - apply (CanAccept_first unit [42; 43] tt). discriminate.
Defined.

(** C9 fails on the empty list: [ids[0]] panics, so [CanAccept] does not
    return "no selection". *)
Lemma CanAccept_empty_panics :
  CanAccept (@nil Z) tt = Panic IndexOutOfRange /\
  CanAccept (@nil Z) tt <> Ok None.
Proof. split; [reflexivity | discriminate]. Qed.

(** ** Ticket resolution *)

(** C5: with a chain head of height [H], [getTicket] asks the chain once
    for the head and once for randomness, with the SealRandomness tag, at
    epoch [H - SealRandomnessLookback], with the CBOR encoding of the
    owner address as entropy and the key of the head; it returns that
    epoch with the randomness it got. *)
Theorem getTicket_epoch (env : Env) (maddr : Address) (w : World)
    (ts : TipSet) (entropy : list Byte.byte) :
  ChainHead env = Ok ts ->
  MarshalCBOR env maddr = Ok entropy ->
  0 <= Height ts < 2 ^ 63 ->
  0 <= SealRandomnessLookback env < 2 ^ 63 ->
  let epoch := Height ts - SealRandomnessLookback env in
  let r := getTicket env maddr w in
  trace r =
    [CallChainHead;
     CallStateGetRandomnessFromTickets
       DomainSeparationTag_SealRandomness epoch entropy (Key ts)] /\
  final r = w /\
  (forall rand,
      StateGetRandomnessFromTickets env
        DomainSeparationTag_SealRandomness epoch entropy (Key ts) = Ok rand ->
      result r = Ok (rand, epoch)) /\
  (forall rand e, result r = Ok (rand, e) -> e = epoch).
Proof.
  intros Hhead Hcbor HH HL epoch r.
  assert (Hepoch : i64 (Height ts - SealRandomnessLookback env) = epoch)
    by (apply i64_small; subst epoch; lia).
  subst r. unfold getTicket, bind, lift, call, ret, after. cbn.
  rewrite Hhead. cbn. rewrite Hcbor. cbn. rewrite Hepoch.
  destruct (StateGetRandomnessFromTickets env
              DomainSeparationTag_SealRandomness epoch entropy (Key ts))
    as [rand|e|p] eqn:Hrand; cbn.
  - repeat split; try reflexivity.
    + intros rand' Heq. now inversion Heq.
    + intros rand' e Heq. now inversion Heq.
  - repeat split; try reflexivity; intros; discriminate.
  - repeat split; try reflexivity; intros; discriminate.
Qed.

Lemma getTicket_epoch_witness :
  let r := getTicket Sample.env (IDAddress 1000) Sample.empty_sector in
  trace r =
    [CallChainHead;
     CallStateGetRandomnessFromTickets
       DomainSeparationTag_SealRandomness (5000 - 900)
       [Byte.x42; Byte.x00; Byte.xe8; Byte.x07] [CidOf "head"]] /\
  result r = Ok ([Byte.x07], 4100).
Proof.
  destruct (getTicket_epoch Sample.env (IDAddress 1000) Sample.empty_sector
              Sample.head [Byte.x42; Byte.x00; Byte.xe8; Byte.x07])
    as (Htrace & _ & Hres & _).
  - reflexivity.
  - reflexivity.
  - cbn. lia.
  - cbn. lia.
  - split.
    + exact Htrace.
    + apply Hres. reflexivity.
Defined.

(** ** Reasoning about runs *)

Arguments filler.FillersFromRem : simpl never.
Arguments ffiwrapper.GetRequiredPadding : simpl never.
Arguments layout_pieces : simpl never.
Arguments Do_commd : simpl never.
Arguments Do_finish : simpl never.
Arguments u64 : simpl never.
Arguments i64 : simpl never.
Arguments abi.Unpadded : simpl never.
Arguments abi.Padded : simpl never.

(** Unfold the task down to the case analyses it makes. *)
Ltac unfold_task :=
  unfold Do, Do_finish, Do_commd, getTicket, generate_sdr,
    db.select_sector_params, db.select_pieces, db.exec_store_success,
    bind, wrapM, lift, call, fail, ret, after, index, wrap_err in *.

Ltac innermost x :=
  match x with
  | context [match ?y with _ => _ end] => innermost y
  | _ => x
  end.

(** Split on the next thing the run depends on. *)
Ltac split_run :=
  match goal with
  | |- context [match ?x with _ => _ end] =>
      let y := innermost x in destruct y eqn:?; cbn
  end.

Lemma length_one_inv {A} (xs : list A) :
  (length xs =? 1)%nat = true -> exists x, xs = [x].
Proof.
  destruct xs as [|x [|y ys]]; cbn; intros H; try discriminate.
  now exists x.
Qed.

(** ** No write before the encoding has succeeded *)

(** C7: when [Do] returns an error raised before the final update (record
    load, piece load, sector size, commitment, ticket, encoding), the two
    tables are as they were and no update was sent. *)
Theorem Do_error_before_commit_writes_nothing (env : Env) (taskID : Z)
    (stillOwned : unit -> bool) (w : World) (e : Error) :
  result (Do env taskID stillOwned w) = Err e ->
  before_commit e = true ->
  final (Do env taskID stillOwned w) = w /\
  Forall (fun c => is_exec c = false) (trace (Do env taskID stillOwned w)).
Proof.
  unfold_task. cbn.
  repeat (split_run; try (intros; discriminate);
          try (now intros; split; [reflexivity | repeat constructor])).
  all: intros Hres Hbc; inversion Hres; subst; discriminate.
Qed.

Lemma Do_error_before_commit_writes_nothing_witness :
  final (Do Sample.env 42 Sample.owned Sample.overflowing)
    = Sample.overflowing /\
  Forall (fun c => is_exec c = false)
    (trace (Do Sample.env 42 Sample.owned Sample.overflowing)).
Proof.
  apply (Do_error_before_commit_writes_nothing Sample.env 42 Sample.owned
           Sample.overflowing (ErrFinalPadding ErrInvalidLayout)).
  - vm_compute. reflexivity.
  - reflexivity.
Defined.



(** ** Row cardinality *)

(** C6: [Do] returns an error when the rows bound to the task are not
    exactly one, and when the final update changes a number of rows other
    than one.  At the load, the database driver not panicking, [Do]
    returns an error, which is the count error when the statement was
    run.  At the update, [n] is the number of rows of the sector in the
    table as the other sessions have left it, which can be none: [Do]
    returns the count error for every [n] other than one, and success for
    one. *)
Theorem Do_row_cardinality (env : Env) (taskID : Z)
    (stillOwned : unit -> bool) (w : World) :
  let bound :=
    length (filter (db.for_task taskID) (sectors_sdr_pipeline w)) in
  ((forall p, db_fault env SelectSectorParams <> Panic p) ->
   bound <> 1%nat ->
   exists e, result (Do env taskID stillOwned w) = Err e) /\
  (db_fault env SelectSectorParams = Ok tt ->
   bound <> 1%nat ->
   result (Do env taskID stillOwned w) = Err (ErrExpected1SectorParams bound))
  /\
  (forall spID sectorNumber ticketEpoch ticket,
      In (CallExec UpdatePipeline spID sectorNumber ticketEpoch ticket)
        (trace (Do env taskID stillOwned w)) ->
      db_fault env UpdatePipeline = Ok tt ->
      let n :=
        Z.of_nat
          (length
             (filter (db.for_sector spID sectorNumber)
                (meanwhile env (sectors_sdr_pipeline w)))) in
      (n <> 1 -> result (Do env taskID stillOwned w) = Err (ErrUpdatedRows n))
      /\
      (n = 1 -> result (Do env taskID stillOwned w) = Ok true)).
Proof.
  intros bound. subst bound. split; [|split].
  - intros Hnp Hrows. unfold_task. cbn.
    destruct (db_fault env SelectSectorParams) as [[]|e|p] eqn:Hf; cbn.
    + rewrite length_map.
      destruct (length (filter (db.for_task taskID) (sectors_sdr_pipeline w))
                =? 1)%nat eqn:Hlen; cbn.
      * apply Nat.eqb_eq in Hlen. contradiction.
      * now eexists.
    + now eexists.
    + now destruct (Hnp p).
  - intros Hf Hrows. unfold_task. rewrite Hf. cbn.
    rewrite length_map.
    destruct (length (filter (db.for_task taskID) (sectors_sdr_pipeline w))
              =? 1)%nat eqn:Hlen; cbn.
    + apply Nat.eqb_eq in Hlen. contradiction.
    + reflexivity.
  - intros spID sectorNumber ticketEpoch ticket.
    unfold_task. cbn.
    repeat (split_run;
            try (now intros Hin; repeat (destruct Hin as [Hin|Hin];
                                         [discriminate|]); destruct Hin)).
    all: intros Hin Hf;
      repeat (destruct Hin as [Hin|Hin]; [try discriminate|]);
      try (now destruct Hin).
    all: try discriminate Hf.
    all: inversion Hin; subst; split; intros Hn; try reflexivity.
    all: match goal with
         | H : negb (?x =? 1) = false |- _ =>
             apply negb_false_iff, Z.eqb_eq in H; contradiction
         | H : negb (?x =? 1) = true |- _ =>
             apply negb_true_iff, Z.eqb_neq in H; contradiction
         end.
Qed.

Lemma Do_row_cardinality_witness :
  (exists e, result (Do Sample.env 99 Sample.owned Sample.empty_sector) = Err e)
  /\
  result (Do Sample.env 99 Sample.owned Sample.empty_sector)
    = Err (ErrExpected1SectorParams 0) /\
  result (Do Sample.row_deleted 42 Sample.owned Sample.empty_sector)
    = Err (ErrUpdatedRows 0) /\
  result (Do Sample.env 42 Sample.owned Sample.duplicated)
    = Err (ErrUpdatedRows 2) /\
  result (Do Sample.env 42 Sample.owned Sample.empty_sector) = Ok true.
Proof.
  split; [|split; [|split; [|split]]].
  - apply (Do_row_cardinality Sample.env 99 Sample.owned Sample.empty_sector).
    + intros p. discriminate.
    + vm_compute. discriminate.
  - apply (Do_row_cardinality Sample.env 99 Sample.owned Sample.empty_sector).
    + reflexivity.
    + vm_compute. discriminate.
  - apply (proj2 (proj2 (Do_row_cardinality Sample.row_deleted 42 Sample.owned
                           Sample.empty_sector))
             1000 7 4100 [Byte.x07]).
    + vm_compute. tauto.
    + reflexivity.
    + vm_compute. discriminate.
  - apply (proj2 (proj2 (Do_row_cardinality Sample.env 42 Sample.owned
                           Sample.duplicated))
             1000 7 4100 [Byte.x07]).
    + vm_compute. tauto.
    + reflexivity.
    + vm_compute. discriminate.
  - apply (proj2 (proj2 (Do_row_cardinality Sample.env 42 Sample.owned
                           Sample.empty_sector))
             1000 7 4100 [Byte.x07]).
    + vm_compute. tauto.
    + reflexivity.
    + vm_compute. reflexivity.
Defined.

(** ** Ownership *)

(** C8, as the code has it: [Do] never consults the ownership check.  Its
    run (calls, tables, result) is the same whatever the check would
    answer, and no call of the check appears among its calls. *)
Theorem Do_never_checks_ownership (env : Env) (taskID : Z)
    (stillOwned stillOwned' : unit -> bool) (w : World) :
  Do env taskID stillOwned w = Do env taskID stillOwned' w /\
  Forall (fun c => is_ownership_check c = false)
    (trace (Do env taskID stillOwned w)).
Proof.
  split; [reflexivity|].
  unfold_task. cbn.
  repeat (split_run; try (now repeat constructor)).
Qed.

(** C8 fails: with the ownership reported lost, [Do] still invokes the
    encoding and performs the final update. *)
Lemma Do_runs_with_ownership_lost :
  let r := Do Sample.env 42 Sample.lost Sample.empty_sector in
  Sample.lost tt = false /\
  result r = Ok true /\
  existsb is_encoding (trace r) = true /\
  existsb is_exec (trace r) = true /\
  sectors_sdr_pipeline (final r)
    = [mkPipelineRow 1000 7 0 None true (Some 4100) (Some [Byte.x07])].
Proof. vm_compute. repeat split. Qed.

(** ** The empty sector *)

(** C2: with no piece, the commitment is the zero-piece commitment of the
    sector's unpadded size, the aggregation is not invoked, and that
    commitment is what the encoding receives. *)
Theorem Do_empty_pieces_zero_commitment (env : Env) (taskID : Z)
    (stillOwned : unit -> bool) (w : World) (params : SectorParams)
    (ssize : Z) :
  loaded env taskID w params [] ssize ->
  let zero := zerocomm.ZeroPieceCommitment (abi.Unpadded ssize) in
  let r := Do env taskID stillOwned w in
  Do_commd env (RegSealProof params) ssize [] w = mkRun [] w (Ok zero) /\
  Forall (fun c => is_aggregation c = false) (trace r) /\
  (forall t sref ticket commd,
      In (CallGenerateSDR t sref ticket commd) (trace r) -> commd = zero).
Proof.
  intros (Hf1 & Hrow & Hf2 & Hpieces & Hsize) zero r.
  split; [reflexivity|].
  subst r. unfold_task. rewrite Hf1, Hrow. cbn.
  rewrite Hf2, Hpieces, Hsize. cbn.
  split.
  - repeat (split_run; try (now repeat constructor)).
  - intros t sref ticket commd.
    repeat (split_run;
            try (now intros Hin;
                 repeat (destruct Hin as [Hin|Hin]; [try discriminate|]);
                 try (now destruct Hin); now inversion Hin)).
Qed.

Lemma Do_empty_pieces_zero_commitment_witness :
  let r := Do Sample.env 42 Sample.owned Sample.empty_sector in
  Do_commd Sample.env 0 2048 [] Sample.empty_sector
    = mkRun [] Sample.empty_sector (Ok (ZeroComm 2032)) /\
  Forall (fun c => is_aggregation c = false) (trace r) /\
  (forall t sref ticket commd,
      In (CallGenerateSDR t sref ticket commd) (trace r) ->
      commd = ZeroComm 2032).
Proof.
  apply (Do_empty_pieces_zero_commitment Sample.env 42 Sample.owned
           Sample.empty_sector (mkSectorParams 1000 7 0) 2048).
  repeat split; reflexivity.
Defined.

(** ** Piece indices *)

(** C4, as the code has it: the commitment computation never reads the
    piece indices.  Two piece sequences that differ in their indices only
    have the same run: the same calls and the same commitment or error. *)
Theorem Do_commd_ignores_indices (env : Env) (proof ssize : Z)
    (pieces pieces' : list Piece) (w : World) :
  map without_index pieces = map without_index pieces' ->
  Do_commd env proof ssize pieces w = Do_commd env proof ssize pieces' w.
Proof.
  intros Hsame.
  assert (Hlen : length pieces = length pieces').
  { rewrite <- (length_map without_index pieces), Hsame.
    apply length_map. }
  assert (Hloop : forall st,
             layout_pieces env st pieces = layout_pieces env st pieces').
  { clear Hlen. revert pieces' Hsame.
    induction pieces as [|p ps IH]; intros [|p' ps'] Hsame st;
      try discriminate; [reflexivity|].
    cbn in Hsame. inversion Hsame as [[Hcid Hsz Hraw Hrest]].
    unfold layout_pieces; fold layout_pieces.
    unfold layout_piece. destruct st as [offset infos].
    rewrite Hcid, Hsz, Hraw.
    destruct (cid_Parse env (PieceCIDText p')); try reflexivity.
    destruct (ffiwrapper.GetRequiredPadding (abi.Padded offset)
                (u64 (PieceSize p'))) as [[pads padLength]| |];
      try reflexivity.
    destruct (DataRawSize p'); try reflexivity.
    now apply IH. }
  unfold Do_commd. rewrite Hlen.
  destruct (0 <? length pieces')%nat; [|reflexivity].
  unfold bind, lift. now rewrite Hloop.
Qed.

Lemma Do_commd_ignores_indices_witness :
  Do_commd Sample.env 0 2048 [mkPiece 5 "p5" 2048 (Some 2032)]
    Sample.one_piece_index_5
  = Do_commd Sample.env 0 2048 [mkPiece 0 "p5" 2048 (Some 2032)]
      Sample.one_piece_index_5.
Proof.
  apply (Do_commd_ignores_indices Sample.env 0 2048
           [mkPiece 5 "p5" 2048 (Some 2032)]
           [mkPiece 0 "p5" 2048 (Some 2032)]).
  reflexivity.
Defined.

(** C4 fails: the only piece of the sector has index 5, and [Do] returns
    success with a commitment over that piece. *)
Lemma Do_accepts_noncontiguous_indices :
  let r := Do Sample.env 42 Sample.owned Sample.one_piece_index_5 in
  map piece_index (sectors_sdr_initial_pieces Sample.one_piece_index_5) = [5]
  /\
  result r = Ok true /\
  In (CallGenerateSDR 42 (mkSectorRef 1000 7 0) [Byte.x07]
        (UnsealedCid 0 [2048]))
    (trace r).
Proof. vm_compute. repeat split. tauto. Qed.

(** ** From [Do] to its commitment computation *)

Lemma layout_pieces_app (env : Env) (st : Layout) (ps qs : list Piece) :
  layout_pieces env st (ps ++ qs) =
  match layout_pieces env st ps with
  | Ok st' => layout_pieces env st' qs
  | Err e => Err e
  | Panic k => Panic k
  end.
Proof.
  revert st. induction ps as [|p ps IH]; intros st.
  - reflexivity.
  - cbn [app]. unfold layout_pieces; fold layout_pieces.
    destruct (layout_piece env st p); auto.
Qed.

(** Once the loads have succeeded, [Do] is its commitment computation
    followed by its end. *)
Lemma Do_loaded (env : Env) (taskID : Z) (stillOwned : unit -> bool)
    (w : World) (params : SectorParams) (pieces : list Piece) (ssize : Z) :
  loaded env taskID w params pieces ssize ->
  Do env taskID stillOwned w =
  after [CallSelect SelectSectorParams [taskID];
         CallSelect SelectPieces [SpID params; SectorNumber params]]
    ((commd <- Do_commd env (RegSealProof params) ssize pieces ;;
      Do_finish env taskID params commd) w).
Proof.
  intros (Hf1 & Hrow & Hf2 & Hpieces & Hsize).
  unfold Do, db.select_sector_params, db.select_pieces,
    bind, wrapM, lift, call, index, wrap_err.
  rewrite Hf1, Hrow. cbn. rewrite Hf2, Hpieces, Hsize. cbn.
  destruct (Do_commd env (RegSealProof params) ssize pieces w)
    as [t w' [c|e|k]]; try reflexivity.
  cbn. destruct (Do_finish env taskID params c w') as [t2 w2 res2].
  cbn. reflexivity.
Qed.

(** When the commitment computation does not return a commitment, [Do]
    stops there with the same outcome. *)
Lemma Do_stops_with_commd (env : Env) (taskID : Z)
    (stillOwned : unit -> bool) (w : World) (params : SectorParams)
    (pieces : list Piece) (ssize : Z) :
  loaded env taskID w params pieces ssize ->
  let rc := Do_commd env (RegSealProof params) ssize pieces w in
  let r := Do env taskID stillOwned w in
  (forall e, result rc = Err e -> result r = Err e) /\
  (forall k, result rc = Panic k -> result r = Panic k) /\
  ((forall c, result rc <> Ok c) ->
   final r = final rc /\
   trace r =
     [CallSelect SelectSectorParams [taskID];
      CallSelect SelectPieces [SpID params; SectorNumber params]]
     ++ trace rc).
Proof.
  intros Hl rc r. subst r. rewrite (Do_loaded _ _ _ _ _ _ _ Hl).
  unfold bind. fold rc. destruct rc as [t w' [c|e|k]]; cbn.
  - split; [discriminate|]. split; [discriminate|].
    intros Hnot. now destruct (Hnot c).
  - repeat split; intros; cbn; congruence.
  - repeat split; intros; cbn; congruence.
Qed.

(** ** A NULL raw size *)

(** C10: when a piece record has a NULL [data_raw_size] and the layout
    loop reaches the end of its iteration (the records before it are laid
    out, its CID parses and its padded size is not zero), [Do] panics on
    the nil pointer instead of returning an error. *)
Theorem Do_panics_on_null_raw_size (env : Env) (taskID : Z)
    (stillOwned : unit -> bool) (w : World) (params : SectorParams)
    (pieces before rest : list Piece) (p : Piece) (ssize : Z)
    (st : Layout) (c : Cid) :
  loaded env taskID w params pieces ssize ->
  pieces = before ++ p :: rest ->
  layout_pieces env (0, []) before = Ok st ->
  cid_Parse env (PieceCIDText p) = Ok c ->
  u64 (PieceSize p) <> 0 ->
  DataRawSize p = None ->
  result (Do env taskID stillOwned w) = Panic NilDereference.
Proof.
  intros Hl Hpieces Hbefore Hcid Hsize Hraw.
  apply (Do_stops_with_commd _ _ stillOwned _ _ _ _ Hl).
  unfold Do_commd. subst pieces.
  rewrite length_app. cbn [length].
  replace (0 <? length before + S (length rest))%nat with true
    by (symmetry; apply Nat.ltb_lt; lia).
  unfold bind, lift.
  rewrite layout_pieces_app, Hbefore.
  unfold layout_pieces; fold layout_pieces.
  unfold layout_piece. destruct st as [offset infos].
  rewrite Hcid. unfold ffiwrapper.GetRequiredPadding.
  destruct (Z.eqb_spec (u64 (PieceSize p)) 0) as [Hz|_]; [contradiction|].
  cbv zeta.
  destruct (ffiwrapper.pad_loop _ _ _ _) as [pads padLength].
  now rewrite Hraw.
Qed.

Lemma Do_panics_on_null_raw_size_witness :
  result (Do Sample.env 42 Sample.owned Sample.null_raw_size)
    = Panic NilDereference.
Proof.
  apply (Do_panics_on_null_raw_size Sample.env 42 Sample.owned
           Sample.null_raw_size (mkSectorParams 1000 7 0)
           [mkPiece 0 "p0" 2048 None] [] [] (mkPiece 0 "p0" 2048 None)
           2048 (0, []) (CidOf "p0")).
  - repeat split; reflexivity.
  - reflexivity.
  - reflexivity.
  - reflexivity.
  - vm_compute. discriminate.
  - reflexivity.
Defined.

(** ** Overflow *)





(** ** The length of the layout *)

(** C1 at a sector of 2KiB with two pieces of padded size 1024, the first
    holding 889 bytes of data: [Do] advances the offset by the 889 bytes,
    not by the 1016 bytes of the piece, aligns the second piece with a
    filler of 128, and hands the aggregation a layout of total padded
    length 2176, not the 2048 of the sector. *)
Lemma Do_short_piece_layout_exceeds_sector :
  let r := Do Sample.env 42 Sample.owned Sample.short_first_piece in
  let layout :=
    [mkPieceInfo 1024 (CidOf "p0"); mkPieceInfo 128 (ZeroComm 127);
     mkPieceInfo 1024 (CidOf "p1")] in
  SectorSize Sample.env 0 = Ok 2048 /\
  In (CallGenerateUnsealedCID 0 layout) (trace r) /\
  total_padded layout = 2176 /\
  total_padded layout <> 2048.
Proof. vm_compute. repeat split; try tauto; discriminate. Qed.

(** * Further properties of the task *)

(** ** The errors of the commitment computation *)

Lemma layout_pieces_error (env : Env) (pieces : list Piece) (st : Layout)
    (e : Error) :
  layout_pieces env st pieces = Err e -> exists c, e = ErrParsingPieceCid c.
Proof.
  revert st. induction pieces as [|p ps IH]; intros st; [discriminate|].
  unfold layout_pieces; fold layout_pieces.
  destruct (layout_piece env st p) as [st'|e'|k] eqn:Hp;
    [apply IH | | discriminate].
  intros Heq. inversion Heq; subst e'. clear Heq.
  unfold layout_piece in Hp. destruct st as [offset infos].
  destruct (cid_Parse env (PieceCIDText p)) as [c|e0|k];
    [| inversion Hp; now eexists | discriminate].
  unfold ffiwrapper.GetRequiredPadding in Hp.
  destruct (u64 (PieceSize p) =? 0); [discriminate|].
  cbv zeta in Hp.
  destruct (ffiwrapper.pad_loop _ _ _ _) as [pads padLength].
  destruct (DataRawSize p); discriminate.
Qed.

Lemma Do_commd_error (env : Env) (proof ssize : Z) (pieces : list Piece)
    (w : World) (e : Error) :
  result (Do_commd env proof ssize pieces w) = Err e ->
  before_commit e = true.
Proof.
  unfold Do_commd, bind, lift, call, ret, after, wrap_err.
  destruct (0 <? length pieces)%nat; [|discriminate].
  destruct (layout_pieces env (0, []) pieces) as [[offset infos]|e'|k] eqn:Hl;
    cbn.
  - destruct (filler.FillersFromRem _); cbn; try discriminate.
    + destruct (GenerateUnsealedCID env proof _); cbn; try discriminate.
      intros Heq; now inversion Heq.
    + intros Heq; now inversion Heq.
  - intros Heq. inversion Heq; subst e'.
    destruct (layout_pieces_error _ _ _ _ Hl) as [c ->]. reflexivity.
  - discriminate.
Qed.



(** ** What a successful execution has done *)

(** A list with exactly one element that satisfies [f]. *)
Lemma filter_one_split {A} (f : A -> bool) (l : list A) :
  length (filter f l) = 1%nat ->
  exists l1 x l2,
    l = l1 ++ x :: l2 /\ f x = true /\
    Forall (fun y => f y = false) l1 /\ Forall (fun y => f y = false) l2.
Proof.
  induction l as [|a l IH]; cbn; intros Hlen; [discriminate|].
  destruct (f a) eqn:Hfa.
  - cbn in Hlen. exists [], a, l. repeat split; auto.
    assert (Hnil : filter f l = []) by (destruct (filter f l); [reflexivity | discriminate]).
    clear -Hnil. induction l as [|b l IH]; [constructor|].
    cbn in Hnil. destruct (f b) eqn:Hfb; [discriminate|].
    constructor; auto.
  - destruct (IH Hlen) as (l1 & x & l2 & -> & Hx & H1 & H2).
    exists (a :: l1), x, l2. repeat split; auto.
Qed.

Lemma map_if_false {A} (f : A -> bool) (g : A -> A) (l : list A) :
  Forall (fun y => f y = false) l ->
  map (fun r => if f r then g r else r) l = l.
Proof.
  induction 1 as [|a l Ha _ IH]; cbn; [reflexivity|].
  now rewrite Ha, IH.
Qed.

(** The run of a successful [Do], step by step. *)
Lemma Do_success_steps (env : Env) (taskID : Z) (stillOwned : unit -> bool)
    (w : World) (b : bool) :
  result (Do env taskID stillOwned w) = Ok b ->
  exists params pieces ssize commd maddr ts entropy ticket,
    loaded env taskID w params pieces ssize /\
    result (Do_commd env (RegSealProof params) ssize pieces w) = Ok commd /\
    NewIDAddress env (u64 (SpID params)) = Ok maddr /\
    ChainHead env = Ok ts /\
    MarshalCBOR env maddr = Ok entropy /\
    let epoch := i64 (Height ts - SealRandomnessLookback env) in
    let sref :=
      mkSectorRef (u64 (SpID params)) (u64 (SectorNumber params))
        (RegSealProof params) in
    let hit := db.for_sector (SpID params) (SectorNumber params) in
    StateGetRandomnessFromTickets env DomainSeparationTag_SealRandomness
      epoch entropy (Key ts) = Ok ticket /\
    let rows := meanwhile env (sectors_sdr_pipeline w) in
    GenerateSDR env taskID sref ticket commd = Ok tt /\
    db_fault env UpdatePipeline = Ok tt /\
    length (filter hit rows) = 1%nat /\
    b = true /\
    final (Do env taskID stillOwned w) =
      mkWorld
        (map (fun r => if hit r then db.store_success epoch ticket r else r)
           rows)
        (sectors_sdr_initial_pieces w) /\
    trace (Do env taskID stillOwned w) =
      [CallSelect SelectSectorParams [taskID];
       CallSelect SelectPieces [SpID params; SectorNumber params]]
      ++ trace (Do_commd env (RegSealProof params) ssize pieces w)
      ++ [CallChainHead;
          CallStateGetRandomnessFromTickets
            DomainSeparationTag_SealRandomness epoch entropy (Key ts);
          CallGenerateSDR taskID sref ticket commd;
          CallExec UpdatePipeline (SpID params) (SectorNumber params)
            epoch ticket].
Proof.
  unfold Do, Do_finish, getTicket, generate_sdr,
    db.select_sector_params, db.select_pieces, db.exec_store_success,
    bind, wrapM, lift, call, fail, ret, after, index, wrap_err, loaded.
  cbn.
  destruct (db_fault env SelectSectorParams) as [[]| |] eqn:Hf1; cbn; try discriminate.
  destruct (negb _) eqn:Hlen; cbn; [discriminate|].
  apply negb_false_iff, length_one_inv in Hlen. destruct Hlen as [params Hrow].
  rewrite Hrow. cbn.
  destruct (db_fault env SelectPieces) as [[]| |] eqn:Hf2; cbn; try discriminate.
  destruct (SectorSize env (RegSealProof params)) as [ssize| |] eqn:Hsize;
    cbn; try discriminate.
  destruct (Do_commd env (RegSealProof params) ssize _ w)
    as [tc wc [commd| |]] eqn:Hc; cbn; try discriminate.
  assert (Hwc : wc = w).
  { clear -Hc. revert Hc. unfold Do_commd, bind, lift, call, ret, after,
      wrap_err.
    repeat (split_run; try (intros; discriminate));
      intros Hc; now inversion Hc. }
  subst wc.
  destruct (NewIDAddress env (u64 (SpID params))) as [maddr| |] eqn:Haddr;
    cbn; try discriminate.
  destruct (ChainHead env) as [ts| |] eqn:Hhead; cbn; try discriminate.
  destruct (MarshalCBOR env maddr) as [entropy| |] eqn:Hcbor; cbn;
    try discriminate.
  destruct (StateGetRandomnessFromTickets env _ _ _ _) as [ticket| |]
    eqn:Hrand; cbn; try discriminate.
  destruct (GenerateSDR env taskID _ ticket commd) as [[]| |] eqn:Hsdr; cbn;
    try discriminate.
  destruct (db_fault env UpdatePipeline) as [[]| |] eqn:Hf3; cbn; try discriminate.
  destruct (negb _) eqn:Hn; cbn; [discriminate|].
  apply negb_false_iff, Z.eqb_eq in Hn.
  intros Hres. inversion Hres; subst b.
  eexists params, _, ssize, commd, maddr, ts, entropy, ticket.
  rewrite Hc. cbn.
  repeat split; auto; try lia.
Qed.

Lemma bound_row (taskID : Z) (rows : list PipelineRow) (params : SectorParams) :
  map db.scan_params (filter (db.for_task taskID) rows) = [params] ->
  exists r0,
    filter (db.for_task taskID) rows = [r0] /\
    In r0 rows /\
    task_id_sdr r0 = Some taskID /\
    db.scan_params r0 = params /\
    db.for_sector (SpID params) (SectorNumber params) r0 = true.
Proof.
  intros Hrow.
  destruct (filter (db.for_task taskID) rows) as [|r0 [|r1 rs]] eqn:Hf;
    try discriminate.
  inversion Hrow as [Hscan].
  assert (Hin : In r0 (filter (db.for_task taskID) rows))
    by (rewrite Hf; now left).
  apply filter_In in Hin. destruct Hin as [Hin Htask].
  exists r0. repeat split; auto.
  - unfold db.for_task in Htask.
    destruct (task_id_sdr r0) as [t|]; [|discriminate].
    apply Z.eqb_eq in Htask. now subst.
  - unfold db.for_sector. cbn. now rewrite !Z.eqb_refl.
Qed.

(** X1: when [Do] returns success, exactly one row of the pipeline table
    is changed by its update: the only row that the sector of the task
    has when the update runs, which is the row that was bound to the task
    when that row is still there.  It now has [after_sdr] set, no task
    bound, and as ticket the randomness the chain returned for the head,
    at the head's height less the lookback, with the encoded address of
    the row's miner as entropy; every other row and the piece table are
    as they were. *)
Theorem Do_success_updates_the_bound_row (env : Env) (taskID : Z)
    (stillOwned : unit -> bool) (w : World) (b : bool) :
  result (Do env taskID stillOwned w) = Ok b ->
  b = true /\
  exists r0 maddr ts entropy ticket l1 r1 l2,
    filter (db.for_task taskID) (sectors_sdr_pipeline w) = [r0] /\
    NewIDAddress env (u64 (sp_id r0)) = Ok maddr /\
    ChainHead env = Ok ts /\
    MarshalCBOR env maddr = Ok entropy /\
    let epoch := i64 (Height ts - SealRandomnessLookback env) in
    let hit := db.for_sector (sp_id r0) (sector_number r0) in
    StateGetRandomnessFromTickets env DomainSeparationTag_SealRandomness
      epoch entropy (Key ts) = Ok ticket /\
    meanwhile env (sectors_sdr_pipeline w) = l1 ++ r1 :: l2 /\
    hit r1 = true /\
    Forall (fun r => hit r = false) (l1 ++ l2) /\
    (In r0 (meanwhile env (sectors_sdr_pipeline w)) -> r1 = r0) /\
    sectors_sdr_pipeline (final (Do env taskID stillOwned w)) =
      l1 ++
      mkPipelineRow (sp_id r1) (sector_number r1) (reg_seal_proof r1)
        None true (Some epoch) (Some ticket)
      :: l2 /\
    sectors_sdr_initial_pieces (final (Do env taskID stillOwned w)) =
      sectors_sdr_initial_pieces w.
Proof.
  intros Hok.
  destruct (Do_success_steps env taskID stillOwned w b Hok)
    as (params & pieces & ssize & commd & maddr & ts & entropy & ticket &
        Hl & _ & Haddr & Hhead & Hcbor & Hrand & _ & _ & Hone & Hb & Hfinal
        & _).
  split; [exact Hb|].
  destruct Hl as (_ & Hrow & _).
  destruct (bound_row taskID _ params Hrow)
    as (r0 & Hf & _ & _ & Hscan & Hhit).
  subst params. cbn [db.scan_params SpID SectorNumber] in *.
  destruct (filter_one_split _ _ Hone) as (l1 & x & l2 & Hsplit & Hx & H1 & H2).
  exists r0, maddr, ts, entropy, ticket, l1, x, l2.
  rewrite Hfinal. cbn. rewrite Hsplit, map_app. cbn. rewrite Hx.
  rewrite !map_if_false by assumption.
  repeat split; auto.
  - apply Forall_app; split; assumption.
  - intros Hin. apply in_app_or in Hin.
    destruct Hin as [Hin|[Hin|Hin]]; auto.
    + rewrite Forall_forall in H1. rewrite (H1 _ Hin) in Hhit. discriminate.
    + rewrite Forall_forall in H2. rewrite (H2 _ Hin) in Hhit. discriminate.
Qed.

Lemma Do_success_updates_the_bound_row_witness :
  exists r0 maddr ts entropy ticket l1 r1 l2,
    filter (db.for_task 42) (sectors_sdr_pipeline Sample.small_then_large)
      = [r0] /\
    NewIDAddress Sample.env (u64 (sp_id r0)) = Ok maddr /\
    ChainHead Sample.env = Ok ts /\
    MarshalCBOR Sample.env maddr = Ok entropy /\
    let epoch := i64 (Height ts - SealRandomnessLookback Sample.env) in
    let hit := db.for_sector (sp_id r0) (sector_number r0) in
    StateGetRandomnessFromTickets Sample.env
      DomainSeparationTag_SealRandomness epoch entropy (Key ts) = Ok ticket /\
    meanwhile Sample.env (sectors_sdr_pipeline Sample.small_then_large)
      = l1 ++ r1 :: l2 /\
    hit r1 = true /\
    Forall (fun r => hit r = false) (l1 ++ l2) /\
    (In r0 (meanwhile Sample.env
              (sectors_sdr_pipeline Sample.small_then_large)) -> r1 = r0) /\
    sectors_sdr_pipeline
      (final (Do Sample.env 42 Sample.owned Sample.small_then_large)) =
      l1 ++
      mkPipelineRow (sp_id r1) (sector_number r1) (reg_seal_proof r1)
        None true (Some epoch) (Some ticket)
      :: l2 /\
    sectors_sdr_initial_pieces
      (final (Do Sample.env 42 Sample.owned Sample.small_then_large)) =
      sectors_sdr_initial_pieces Sample.small_then_large.
Proof.
  apply (Do_success_updates_the_bound_row Sample.env 42 Sample.owned
           Sample.small_then_large true).
  vm_compute. reflexivity.
Defined.

Lemma no_task_after_update (taskID spID sectorNumber epoch : Z)
    (ticket : list Byte.byte) (rows : list PipelineRow) :
  (forall r, In r rows -> db.for_task taskID r = true ->
             db.for_sector spID sectorNumber r = true) ->
  filter (db.for_task taskID)
    (map (fun r => if db.for_sector spID sectorNumber r
                   then db.store_success epoch ticket r else r) rows) = [].
Proof.
  induction rows as [|r rows IH]; intros Hall; [reflexivity|].
  cbn. destruct (db.for_sector spID sectorNumber r) eqn:Hhit.
  - cbn. apply IH. intros; apply Hall; auto. now right.
  - destruct (db.for_task taskID r) eqn:Htask.
    + rewrite (Hall r (or_introl eq_refl) Htask) in Hhit. discriminate.
    + apply IH. intros; apply Hall; auto. now right.
Qed.

(** X2: a task is consumed by its success.  After [Do] has returned
    success, no other session having bound a row to the task in the
    meantime, no row is bound to the task any more: a second [Do] for the
    same task fails at the record load with "expected 1 sector params,
    got 0" and leaves the tables as the first left them. *)
Theorem Do_again_after_success_fails (env : Env) (taskID : Z)
    (stillOwned stillOwned' : unit -> bool) (w : World) (b : bool) :
  (forall r, In r (meanwhile env (sectors_sdr_pipeline w)) ->
             db.for_task taskID r = true ->
             In r (sectors_sdr_pipeline w)) ->
  result (Do env taskID stillOwned w) = Ok b ->
  let w' := final (Do env taskID stillOwned w) in
  filter (db.for_task taskID) (sectors_sdr_pipeline w') = [] /\
  Do env taskID stillOwned' w' =
    mkRun [CallSelect SelectSectorParams [taskID]] w'
      (Err (ErrExpected1SectorParams 0)).
Proof.
  intros Hothers Hok w'.
  destruct (Do_success_steps env taskID stillOwned w b Hok)
    as (params & pieces & ssize & commd & maddr & ts & entropy & ticket &
        Hl & _ & _ & _ & _ & _ & _ & _ & _ & _ & Hfinal & _).
  destruct Hl as (Hf1 & Hrow & _).
  destruct (bound_row taskID _ params Hrow) as (r0 & Hf & _ & _ & _ & Hhit).
  assert (Hnone : filter (db.for_task taskID) (sectors_sdr_pipeline w') = []).
  { subst w'. rewrite Hfinal. cbn. apply no_task_after_update.
    intros r Hin Htask.
    assert (Hin' : In r (filter (db.for_task taskID) (sectors_sdr_pipeline w)))
      by (apply filter_In; auto).
    rewrite Hf in Hin'. destruct Hin' as [<-|[]]. exact Hhit. }
  split; [exact Hnone|].
  unfold Do, db.select_sector_params, bind, wrapM, call, after, fail, wrap_err.
  rewrite Hf1, Hnone. reflexivity.
Qed.

Lemma Do_again_after_success_fails_witness :
  let w' := final (Do Sample.env 42 Sample.owned Sample.two_halves) in
  filter (db.for_task 42) (sectors_sdr_pipeline w') = [] /\
  Do Sample.env 42 Sample.owned w' =
    mkRun [CallSelect SelectSectorParams [42]] w'
      (Err (ErrExpected1SectorParams 0)).
Proof.
  apply (Do_again_after_success_fails Sample.env 42 Sample.owned Sample.owned
           Sample.two_halves true).
  - intros r Hin _. exact Hin.
  - vm_compute. reflexivity.
Defined.

(** ** The order of the calls *)

(** X3: in every run of [Do], the final update, when it is sent, is the
    last call; it comes right after an encoding that returned no error,
    and it stores the ticket that encoding was given and the epoch the
    randomness was requested at. *)
Theorem Do_update_follows_encoding (env : Env) (taskID : Z)
    (stillOwned : unit -> bool) (w : World)
    (spID sectorNumber ticketEpoch : Z) (ticket : list Byte.byte) :
  In (CallExec UpdatePipeline spID sectorNumber ticketEpoch ticket)
    (trace (Do env taskID stillOwned w)) ->
  exists before sref commd entropy tsk,
    trace (Do env taskID stillOwned w) =
      before ++
      [CallStateGetRandomnessFromTickets DomainSeparationTag_SealRandomness
         ticketEpoch entropy tsk;
       CallGenerateSDR taskID sref ticket commd;
       CallExec UpdatePipeline spID sectorNumber ticketEpoch ticket] /\
    Forall (fun c => is_exec c = false /\ is_encoding c = false) before /\
    GenerateSDR env taskID sref ticket commd = Ok tt /\
    StateGetRandomnessFromTickets env DomainSeparationTag_SealRandomness
      ticketEpoch entropy tsk = Ok ticket.
Proof.
  unfold_task. cbn.
  repeat (split_run;
          try (now intros Hin;
               repeat (destruct Hin as [Hin|Hin]; [discriminate|]);
               destruct Hin)).
  all: intros Hin;
    repeat (destruct Hin as [Hin|Hin]; [try discriminate|]);
    try (now destruct Hin); inversion Hin; subst.
  all: repeat match goal with u : unit |- _ => destruct u end.
  all: match goal with
       | Hr : StateGetRandomnessFromTickets _ _ _ ?en ?k = Ok _,
         Hs : GenerateSDR _ _ ?sref _ ?cd = Ok tt |- _ =>
           match goal with
           | |- exists _ _ _ _ _, ?a :: ?b :: ?c :: ?d :: ?rest = _ /\ _ =>
               first
                 [ exists [a; b; c; d]; exists sref, cd, en, k;
                   split; [reflexivity|];
                   split; [repeat constructor | split; assumption]
                 | exists [a; b; c]; exists sref, cd, en, k;
                   split; [reflexivity|];
                   split; [repeat constructor | split; assumption] ]
           end
       end.
Qed.

Lemma Do_update_follows_encoding_witness :
  exists before sref commd entropy tsk,
    trace (Do Sample.env 42 Sample.owned Sample.two_halves) =
      before ++
      [CallStateGetRandomnessFromTickets DomainSeparationTag_SealRandomness
         4100 entropy tsk;
       CallGenerateSDR 42 sref [Byte.x07] commd;
       CallExec UpdatePipeline 1000 7 4100 [Byte.x07]] /\
    Forall (fun c => is_exec c = false /\ is_encoding c = false) before /\
    GenerateSDR Sample.env 42 sref [Byte.x07] commd = Ok tt /\
    StateGetRandomnessFromTickets Sample.env
      DomainSeparationTag_SealRandomness 4100 entropy tsk = Ok [Byte.x07].
Proof.
  apply (Do_update_follows_encoding Sample.env 42 Sample.owned
           Sample.two_halves 1000 7 4100 [Byte.x07]).
  vm_compute. tauto.
Defined.

Lemma store_success_keeps_sectors (hit : PipelineRow -> bool) (epoch : Z)
    (ticket : list Byte.byte) (rows : list PipelineRow) :
  map sector_of
    (map (fun r => if hit r then db.store_success epoch ticket r else r) rows)
  = map sector_of rows.
Proof.
  induction rows as [|r rows IH]; [reflexivity|].
  cbn. rewrite IH. now destruct (hit r).
Qed.

(** X4: whatever its outcome, [Do] never touches the piece table, and
    never adds, removes, reorders or re-keys a row of the pipeline table:
    the table it leaves is the table it found or, once the update has
    run, the table as the other sessions have left it, with the owner,
    the sector number and the proof type of every row in place. *)
Theorem Do_keeps_rows_and_pieces (env : Env) (taskID : Z)
    (stillOwned : unit -> bool) (w : World) :
  let w' := final (Do env taskID stillOwned w) in
  sectors_sdr_initial_pieces w' = sectors_sdr_initial_pieces w /\
  (sectors_sdr_pipeline w' = sectors_sdr_pipeline w \/
   map sector_of (sectors_sdr_pipeline w')
     = map sector_of (meanwhile env (sectors_sdr_pipeline w))).
Proof.
  unfold_task. cbn.
  repeat (split_run; try (now split; [reflexivity | left]));
    cbn; (split; [reflexivity | right; apply store_success_keeps_sectors]).
Qed.

(** X5: the final update is not undone.  When [Do] fails with
    "store sdr success: updated n rows", the update was sent and run for
    the sector of the row [r0] bound to the task; [n], which is not one,
    is the number of rows that sector has in the table as the other
    sessions have left it (none, when the row was deleted); each of these
    rows has been marked done, with the randomness the chain returned as
    ticket, and unbound from its task; and the row of the task, when it
    is still there, is no longer what it was: the error is returned after
    the write. *)
Theorem Do_update_is_not_rolled_back (env : Env) (taskID : Z)
    (stillOwned : unit -> bool) (w : World) (n : Z) :
  result (Do env taskID stillOwned w) = Err (ErrUpdatedRows n) ->
  exists r0 maddr ts entropy ticket,
    filter (db.for_task taskID) (sectors_sdr_pipeline w) = [r0] /\
    NewIDAddress env (u64 (sp_id r0)) = Ok maddr /\
    ChainHead env = Ok ts /\
    MarshalCBOR env maddr = Ok entropy /\
    let epoch := i64 (Height ts - SealRandomnessLookback env) in
    let hit := db.for_sector (sp_id r0) (sector_number r0) in
    let rows := meanwhile env (sectors_sdr_pipeline w) in
    StateGetRandomnessFromTickets env DomainSeparationTag_SealRandomness
      epoch entropy (Key ts) = Ok ticket /\
    db_fault env UpdatePipeline = Ok tt /\
    In (CallExec UpdatePipeline (sp_id r0) (sector_number r0) epoch ticket)
      (trace (Do env taskID stillOwned w)) /\
    n = Z.of_nat (length (filter hit rows)) /\
    n <> 1 /\
    sectors_sdr_pipeline (final (Do env taskID stillOwned w)) =
      map (fun r => if hit r then db.store_success epoch ticket r else r)
        rows /\
    (In r0 rows ->
     sectors_sdr_pipeline (final (Do env taskID stillOwned w)) <> rows).
Proof.
  unfold Do, Do_finish, getTicket, generate_sdr,
    db.select_sector_params, db.select_pieces, db.exec_store_success,
    bind, wrapM, lift, call, fail, ret, after, index, wrap_err.
  cbn.
  destruct (db_fault env SelectSectorParams) as [[]| |] eqn:Hf1; cbn; try discriminate.
  destruct (negb _) eqn:Hlen; cbn; [discriminate|].
  apply negb_false_iff, length_one_inv in Hlen. destruct Hlen as [params Hrow].
  rewrite Hrow. cbn.
  destruct (db_fault env SelectPieces) as [[]| |] eqn:Hf2; cbn; try discriminate.
  destruct (SectorSize env (RegSealProof params)) as [ssize| |] eqn:Hsize;
    cbn; try discriminate.
  destruct (Do_commd env (RegSealProof params) ssize _ w)
    as [tc wc [commd| |]] eqn:Hc; cbn; try discriminate.
  2: { intros Heq. inversion Heq; subst.
       assert (Hres : result (Do_commd env (RegSealProof params) ssize
                                (map db.scan_piece
                                   (db.order_by_piece_index
                                      (filter
                                         (db.piece_of_sector (SpID params)
                                            (SectorNumber params))
                                         (sectors_sdr_initial_pieces w)))) w)
                      = Err (ErrUpdatedRows n)) by now rewrite Hc.
       apply Do_commd_error in Hres. discriminate. }
  assert (Hwc : wc = w).
  { clear -Hc. revert Hc. unfold Do_commd, bind, lift, call, ret, after,
      wrap_err.
    repeat (split_run; try (intros; discriminate));
      intros Hc; now inversion Hc. }
  subst wc.
  destruct (NewIDAddress env (u64 (SpID params))) as [maddr| |] eqn:Haddr;
    cbn; try discriminate.
  destruct (ChainHead env) as [ts| |] eqn:Hhead; cbn; try discriminate.
  destruct (MarshalCBOR env maddr) as [entropy| |] eqn:Hcbor; cbn;
    try discriminate.
  destruct (StateGetRandomnessFromTickets env _ _ _ _) as [ticket| |]
    eqn:Hrand; cbn; try discriminate.
  destruct (GenerateSDR env taskID _ ticket commd) as [[]| |] eqn:Hsdr; cbn;
    try discriminate.
  destruct (db_fault env UpdatePipeline) as [[]| |] eqn:Hf3; cbn; try discriminate.
  destruct (negb _) eqn:Hn; cbn; [|discriminate].
  apply negb_true_iff, Z.eqb_neq in Hn.
  intros Hres. inversion Hres as [Hn']. clear Hres.
  destruct (bound_row taskID _ params Hrow)
    as (r0 & Hf & _ & Htask & Hscan & Hhit).
  subst params. cbn [db.scan_params SpID SectorNumber] in *.
  exists r0, maddr, ts, entropy, ticket.
  repeat split; auto.
  - right. right. apply in_or_app. right. cbn. tauto.
  - intros Hin Heq.
    set (rows := meanwhile env (sectors_sdr_pipeline w)) in *.
    clearbody rows. clear -Heq Hin Htask Hhit.
    induction rows as [|r rows IH]; [destruct Hin|].
    cbn in Heq. inversion Heq as [[Hr Hrest]].
    destruct Hin as [->|Hin]; [|now apply IH].
    rewrite Hhit in Hr. rewrite <- Hr in Htask. discriminate.
Qed.

Lemma Do_update_is_not_rolled_back_witness :
  (exists r0 maddr ts entropy ticket,
    filter (db.for_task 42) (sectors_sdr_pipeline Sample.two_halves) = [r0] /\
    NewIDAddress Sample.row_deleted (u64 (sp_id r0)) = Ok maddr /\
    ChainHead Sample.row_deleted = Ok ts /\
    MarshalCBOR Sample.row_deleted maddr = Ok entropy /\
    let epoch := i64 (Height ts - SealRandomnessLookback Sample.row_deleted) in
    let hit := db.for_sector (sp_id r0) (sector_number r0) in
    let rows :=
      meanwhile Sample.row_deleted (sectors_sdr_pipeline Sample.two_halves) in
    StateGetRandomnessFromTickets Sample.row_deleted
      DomainSeparationTag_SealRandomness epoch entropy (Key ts) = Ok ticket /\
    db_fault Sample.row_deleted UpdatePipeline = Ok tt /\
    In (CallExec UpdatePipeline (sp_id r0) (sector_number r0) epoch ticket)
      (trace (Do Sample.row_deleted 42 Sample.owned Sample.two_halves)) /\
    0 = Z.of_nat (length (filter hit rows)) /\
    0 <> 1 /\
    sectors_sdr_pipeline
      (final (Do Sample.row_deleted 42 Sample.owned Sample.two_halves)) =
      map (fun r => if hit r then db.store_success epoch ticket r else r)
        rows /\
    (In r0 rows ->
     sectors_sdr_pipeline
       (final (Do Sample.row_deleted 42 Sample.owned Sample.two_halves))
     <> rows)) /\
  (exists r0 maddr ts entropy ticket,
    filter (db.for_task 42) (sectors_sdr_pipeline Sample.duplicated) = [r0] /\
    NewIDAddress Sample.env (u64 (sp_id r0)) = Ok maddr /\
    ChainHead Sample.env = Ok ts /\
    MarshalCBOR Sample.env maddr = Ok entropy /\
    let epoch := i64 (Height ts - SealRandomnessLookback Sample.env) in
    let hit := db.for_sector (sp_id r0) (sector_number r0) in
    let rows := meanwhile Sample.env (sectors_sdr_pipeline Sample.duplicated) in
    StateGetRandomnessFromTickets Sample.env
      DomainSeparationTag_SealRandomness epoch entropy (Key ts) = Ok ticket /\
    db_fault Sample.env UpdatePipeline = Ok tt /\
    In (CallExec UpdatePipeline (sp_id r0) (sector_number r0) epoch ticket)
      (trace (Do Sample.env 42 Sample.owned Sample.duplicated)) /\
    2 = Z.of_nat (length (filter hit rows)) /\
    2 <> 1 /\
    sectors_sdr_pipeline
      (final (Do Sample.env 42 Sample.owned Sample.duplicated)) =
      map (fun r => if hit r then db.store_success epoch ticket r else r)
        rows /\
    (In r0 rows ->
     sectors_sdr_pipeline
       (final (Do Sample.env 42 Sample.owned Sample.duplicated))
     <> rows)).
Proof.
  split.
  - apply (Do_update_is_not_rolled_back Sample.row_deleted 42 Sample.owned
             Sample.two_halves 0).
    vm_compute. reflexivity.
  - apply (Do_update_is_not_rolled_back Sample.env 42 Sample.owned
             Sample.duplicated 2).
    vm_compute. reflexivity.
Defined.

(** ** Every error names its step *)

(** X6: [Do] never returns the bare error of a collaborator.  An error of
    [Do] is one of the wrappers of the steps before the final update, or
    one of the two errors of the final update; the latter are returned
    only after the update was sent. *)
Theorem Do_errors_name_their_step (env : Env) (taskID : Z)
    (stillOwned : unit -> bool) (w : World) (e : Error) :
  result (Do env taskID stillOwned w) = Err e ->
  (before_commit e = true /\
   existsb is_exec (trace (Do env taskID stillOwned w)) = false) \/
  (from_commit e = true /\
   existsb is_exec (trace (Do env taskID stillOwned w)) = true /\
   existsb is_encoding (trace (Do env taskID stillOwned w)) = true).
Proof.
  unfold Do, Do_finish, getTicket, generate_sdr,
    db.select_sector_params, db.select_pieces, db.exec_store_success,
    bind, wrapM, lift, call, fail, ret, after, index, wrap_err.
  cbn.
  destruct (db_fault env SelectSectorParams) as [[]| |] eqn:Hf1; cbn;
    [|intros Heq; inversion Heq; now left|discriminate].
  destruct (negb _) eqn:Hlen; cbn; [intros Heq; inversion Heq; now left|].
  apply negb_false_iff, length_one_inv in Hlen. destruct Hlen as [params Hrow].
  rewrite Hrow. cbn.
  destruct (db_fault env SelectPieces) as [[]| |] eqn:Hf2; cbn;
    [|intros Heq; inversion Heq; now left|discriminate].
  destruct (SectorSize env (RegSealProof params)) as [ssize| |] eqn:Hsize;
    cbn; try discriminate; [|intros Heq; inversion Heq; now left].
  destruct (Do_commd env (RegSealProof params) ssize _ w)
    as [tc wc res] eqn:Hc.
  assert (Htc : existsb is_exec tc = false /\ existsb is_encoding tc = false).
  { clear -Hc. revert Hc. unfold Do_commd, bind, lift, call, ret, after,
      wrap_err.
    repeat (split_run; try (intros; discriminate));
      intros Hc; now inversion Hc. }
  destruct Htc as [Hexec Henc].
  assert (Hquiet : forall t,
             existsb is_exec t = false ->
             existsb is_exec (tc ++ t) = false)
    by (intros t Ht; now rewrite existsb_app, Hexec, Ht).
  destruct res as [commd|e'|k]; cbn; try discriminate.
  2: { intros Heq. inversion Heq; subst e'. left. split.
       - eapply Do_commd_error. rewrite Hc. reflexivity.
       - exact Hexec. }
  destruct (NewIDAddress env (u64 (SpID params))) as [maddr| |] eqn:Haddr;
    cbn; try discriminate;
    [|intros Heq; inversion Heq; left; split;
      [reflexivity | now apply Hquiet]].
  destruct (ChainHead env) as [ts| |] eqn:Hhead; cbn; try discriminate;
    [|intros Heq; inversion Heq; left; split;
      [reflexivity | now apply Hquiet]].
  destruct (MarshalCBOR env maddr) as [entropy| |] eqn:Hcbor; cbn;
    try discriminate;
    [|intros Heq; inversion Heq; left; split;
      [reflexivity | now apply Hquiet]].
  destruct (StateGetRandomnessFromTickets env _ _ _ _) as [ticket| |]
    eqn:Hrand; cbn; try discriminate;
    [|intros Heq; inversion Heq; left; split;
      [reflexivity | now apply Hquiet]].
  destruct (GenerateSDR env taskID _ ticket commd) as [[]| |] eqn:Hsdr; cbn;
    try discriminate;
    [|intros Heq; inversion Heq; left; split;
      [reflexivity | now apply Hquiet]].
  destruct (db_fault env UpdatePipeline) as [[]| |] eqn:Hf3; cbn;
    try discriminate.
  - destruct (negb _); cbn; [|discriminate].
    intros Heq; inversion Heq; right.
    rewrite !existsb_app. cbn. now rewrite !orb_true_r.
  - intros Heq; inversion Heq; right.
    rewrite !existsb_app. cbn. now rewrite !orb_true_r.
Qed.

Lemma Do_errors_name_their_step_witness :
  (before_commit (ErrUpdatedRows 2) = true /\
   existsb is_exec (trace (Do Sample.env 42 Sample.owned Sample.duplicated))
     = false) \/
  (from_commit (ErrUpdatedRows 2) = true /\
   existsb is_exec (trace (Do Sample.env 42 Sample.owned Sample.duplicated))
     = true /\
   existsb is_encoding
     (trace (Do Sample.env 42 Sample.owned Sample.duplicated)) = true).
Proof.
  apply (Do_errors_name_their_step Sample.env 42 Sample.owned
           Sample.duplicated (ErrUpdatedRows 2)).
  vm_compute. reflexivity.
Defined.

(** ** The errors of the ticket resolution *)

(** X7: [getTicket] never writes, asks for the head exactly once, and
    asks for randomness only when it has a head and the encoding of the
    address.  When the head is unavailable or the address cannot be
    encoded it fails with that cause, wrapped, and has not asked for
    randomness; when the randomness call fails it fails with that cause,
    wrapped. *)
Theorem getTicket_failures (env : Env) (maddr : Address) (w : World) :
  let r := getTicket env maddr w in
  final r = w /\
  (forall e, ChainHead env = Err e ->
     r = mkRun [CallChainHead] w (Err (ErrGettingChainHead e))) /\
  (forall ts e, ChainHead env = Ok ts -> MarshalCBOR env maddr = Err e ->
     r = mkRun [CallChainHead] w (Err (ErrMarshalingMinerAddress e))) /\
  (forall ts entropy e,
     ChainHead env = Ok ts -> MarshalCBOR env maddr = Ok entropy ->
     StateGetRandomnessFromTickets env DomainSeparationTag_SealRandomness
       (i64 (Height ts - SealRandomnessLookback env)) entropy (Key ts)
       = Err e ->
     result r = Err (ErrGettingRandomness e)) /\
  (forall tag epoch entropy tsk,
     In (CallStateGetRandomnessFromTickets tag epoch entropy tsk) (trace r) ->
     exists ts,
       ChainHead env = Ok ts /\ MarshalCBOR env maddr = Ok entropy /\
       tsk = Key ts /\ tag = DomainSeparationTag_SealRandomness).
Proof.
  unfold getTicket, bind, lift, call, ret, after, wrap_err. cbn.
  destruct (ChainHead env) as [ts|e0|k] eqn:Hhead; cbn.
  - destruct (MarshalCBOR env maddr) as [entropy|e1|k] eqn:Hcbor; cbn.
    + destruct (StateGetRandomnessFromTickets env _ _ _ _) as [rand|e2|k]
        eqn:Hrand; cbn;
        (split; [reflexivity|]; split; [discriminate|];
         split; [discriminate|]; split;
         [ intros ts' en' e' Hts Hen; inversion Hts; inversion Hen; subst;
           intros Hr; rewrite Hr in Hrand; now inversion Hrand
         | intros tag epoch en' tsk [Hin|[Hin|[]]]; [discriminate|];
           inversion Hin; subst; now exists ts ]).
    + split; [reflexivity|]. split; [discriminate|].
      split; [intros ts' e' Hts He; inversion He; reflexivity|].
      split; [discriminate|].
      intros tag epoch en' tsk [Hin|[]]; discriminate.
    + split; [reflexivity|]. split; [discriminate|].
      split; [discriminate|]. split; [discriminate|].
      intros tag epoch en' tsk [Hin|[]]; discriminate.
  - split; [reflexivity|].
    split; [intros e' He; inversion He; reflexivity|].
    split; [discriminate|]. split; [discriminate|].
    intros tag epoch en' tsk [Hin|[]]; discriminate.
  - split; [reflexivity|]. split; [discriminate|].
    split; [discriminate|]. split; [discriminate|].
    intros tag epoch en' tsk [Hin|[]]; discriminate.
Qed.

(** ** The sector of a task *)

(** X8: [taskToSector] never writes and answers with a sector exactly
    when the database answers and exactly one row is bound to the task:
    then the sector is that row's.  With no row or several it fails with
    "expected 1 sector ref, got n". *)
Theorem taskToSector_exactly_one (env : Env) (id : Z) (w : World) :
  let r := taskToSector env id w in
  let bound := filter (db.for_task id) (sectors_sdr_pipeline w) in
  final r = w /\
  trace r = [CallSelect SelectSectorParams [id]] /\
  (forall ref,
     result r = Ok ref <->
     db_fault env SelectSectorParams = Ok tt /\
     map db.scan_params bound = [ref]) /\
  (db_fault env SelectSectorParams = Ok tt ->
   length bound <> 1%nat ->
   result r = Err (ErrExpected1SectorRef (length bound))).
Proof.
  unfold taskToSector, db.select_sector_params, bind, wrapM, call, lift,
    fail, after, index, wrap_err. cbn.
  destruct (db_fault env SelectSectorParams) as [[]|e|p] eqn:Hf; cbn.
  - rewrite length_map.
    destruct (filter (db.for_task id) (sectors_sdr_pipeline w))
      as [|r0 [|r1 rs]]; cbn;
      (split; [reflexivity|]; split; [reflexivity|]; split;
       [intros ref; split;
        [ intros Heq; inversion Heq; auto
        | intros [_ Hrow]; inversion Hrow; reflexivity ]
       | intros _ Hne; try reflexivity; now destruct Hne ]).
  - split; [reflexivity|]. split; [reflexivity|]. split.
    + intros ref; split; [discriminate | intros [Hnone _]; discriminate].
    + discriminate.
  - split; [reflexivity|]. split; [reflexivity|]. split.
    + intros ref; split; [discriminate | intros [Hnone _]; discriminate].
    + discriminate.
Qed.

(** X9: the sector [Do] encodes is the sector of the task.  Whenever [Do]
    invokes the encoding, [taskToSector] resolves the task in the same
    tables, and the sector reference, the task and the proof type that
    the encoding receives are those of the row it returns. *)
Theorem Do_encodes_the_sector_of_the_task (env : Env) (taskID : Z)
    (stillOwned : unit -> bool) (w : World) (t : Z) (sref : SectorRef)
    (ticket : list Byte.byte) (commd : Cid) :
  In (CallGenerateSDR t sref ticket commd)
    (trace (Do env taskID stillOwned w)) ->
  exists ref,
    result (taskToSector env taskID w) = Ok ref /\
    t = taskID /\
    sref = mkSectorRef (u64 (SpID ref)) (u64 (SectorNumber ref))
             (RegSealProof ref).
Proof.
  unfold taskToSector.
  unfold_task. cbn.
  destruct (db_fault env SelectSectorParams) as [[]| |] eqn:Hf; cbn;
    try (intros [Hin|[]]; discriminate).
  destruct (negb _) eqn:Hlen; cbn; [intros [Hin|[]]; discriminate|].
  apply negb_false_iff, length_one_inv in Hlen. destruct Hlen as [params Hrow].
  rewrite Hrow. cbn.
  repeat (split_run;
          try (now intros Hin;
               repeat (destruct Hin as [Hin|Hin]; [discriminate|]);
               destruct Hin)).
  all: intros Hin;
    repeat (destruct Hin as [Hin|Hin]; [try discriminate|]);
    try (now destruct Hin); inversion Hin; subst;
    exists params; repeat split.
Qed.

Lemma Do_encodes_the_sector_of_the_task_witness :
  exists ref,
    result (taskToSector Sample.env 42 Sample.two_halves) = Ok ref /\
    42 = 42 /\
    mkSectorRef 1000 7 0
      = mkSectorRef (u64 (SpID ref)) (u64 (SectorNumber ref))
          (RegSealProof ref).
Proof.
  apply (Do_encodes_the_sector_of_the_task Sample.env 42 Sample.owned
           Sample.two_halves 42 (mkSectorRef 1000 7 0) [Byte.x07]
           (UnsealedCid 0 [1024; 1024])).
  vm_compute. tauto.
Defined.

(** X10: [GetSpid] answers the empty string when the query fails, when no
    row is bound to the task and when the scan of the first bound row
    fails; otherwise it answers the scanned owner of the first bound row,
    also when several rows are bound, which [taskToSector] refuses.  An
    answer that is not empty is the scanned owner of the first bound
    row. *)
Theorem GetSpid_first_bound_row (query_fault : option Error)
    (scan_text : Z -> option string) (w : World) (taskID : Z) :
  let bound := filter (db.for_task taskID) (sectors_sdr_pipeline w) in
  (query_fault <> None -> GetSpid query_fault scan_text w taskID = EmptyString)
  /\
  (bound = [] -> GetSpid query_fault scan_text w taskID = EmptyString) /\
  (forall r rest,
     bound = r :: rest -> scan_text (sp_id r) = None ->
     GetSpid query_fault scan_text w taskID = EmptyString) /\
  (forall r rest spid,
     query_fault = None -> bound = r :: rest ->
     scan_text (sp_id r) = Some spid ->
     GetSpid query_fault scan_text w taskID = spid /\
     In r (sectors_sdr_pipeline w) /\ task_id_sdr r = Some taskID) /\
  (GetSpid query_fault scan_text w taskID <> EmptyString ->
   exists r rest,
     query_fault = None /\ bound = r :: rest /\
     scan_text (sp_id r) = Some (GetSpid query_fault scan_text w taskID)).
Proof.
  assert (Hbound : forall r rest,
             filter (db.for_task taskID) (sectors_sdr_pipeline w) = r :: rest ->
             In r (sectors_sdr_pipeline w) /\ task_id_sdr r = Some taskID).
  { intros r rest Hf.
    assert (Hin : In r (filter (db.for_task taskID) (sectors_sdr_pipeline w)))
      by (rewrite Hf; now left).
    apply filter_In in Hin. destruct Hin as [Hin Htask]. split; [exact Hin|].
    unfold db.for_task in Htask.
    destruct (task_id_sdr r); [|discriminate].
    apply Z.eqb_eq in Htask. now subst. }
  unfold GetSpid. cbv zeta.
  destruct query_fault as [e|].
  - repeat split; try reflexivity; try discriminate.
    intros H; now destruct H.
  - destruct (filter (db.for_task taskID) (sectors_sdr_pipeline w))
      as [|r rest] eqn:Hf.
    + repeat split; try reflexivity; try discriminate.
      intros H; now destruct H.
    + destruct (Hbound r rest eq_refl) as [Hin Htask].
      split; [intros H; now destruct H|]. split; [discriminate|].
      split; [|split].
      * intros r' rest' Heq Hscan. inversion Heq; subst r' rest'.
        now rewrite Hscan.
      * intros r' rest' spid _ Heq Hscan. inversion Heq; subst r' rest'.
        rewrite Hscan. auto.
      * destruct (scan_text (sp_id r)) as [spid|] eqn:Hscan;
          [|intros H; now destruct H].
        intros _. now exists r, rest.
Qed.

(** ** The declared resources *)

(** X11: the mode flag decides the declared cost.  After [SetDevnet true]
    the task declares one CPU, 1GiB of memory and storage for a sector of
    2MiB; after [SetDevnet false] four CPUs, 64GiB + 256MiB and storage
    for a sector of 32GiB.  In both modes the storage is that of a cache
    allocated on a sealing path, no GPU is asked for, the task may fail
    twice, and at most the [maxSDR] given to [NewSDRTask] run at once. *)
Theorem TypeDetails_by_mode (maxSDR : Z) (value : bool) (g : Globals) :
  let g' := SetDevnet value g in
  let d := TypeDetails (NewSDRTask maxSDR) g' in
  GetDevnet g' = value /\
  Max d = maxSDR /\ MaxFailures d = 2 /\ Name d = "SDR"%string /\
  Gpu (Cost d) = 0 /\
  alloc (Storage (Cost d)) = FTCache /\
  existing (Storage (Cost d)) = FTNone /\
  path_type (Storage (Cost d)) = PathSealing /\
  Cpu (Cost d) = (if value then 1 else 4) /\
  Ram (Cost d) = (if value then 2 ^ 30 else 64 * 2 ^ 30 + 256 * 2 ^ 20) /\
  claim_ssize (Storage (Cost d)) = (if value then 2 ^ 21 else 2 ^ 35).
Proof. destruct value; cbv; repeat split. Qed.

Lemma getTicket_failures_witness :
  getTicket Sample.offline (IDAddress 1000) Sample.empty_sector
  = mkRun [CallChainHead] Sample.empty_sector
      (Err (ErrGettingChainHead (ErrExternal "api down"))).
Proof.
  apply (getTicket_failures Sample.offline (IDAddress 1000)
           Sample.empty_sector).
  reflexivity.
Defined.

Lemma taskToSector_exactly_one_witness :
  result (taskToSector Sample.env 42 Sample.duplicated)
    = Ok (mkSectorParams 1000 7 0) /\
  result (taskToSector Sample.env 99 Sample.duplicated)
    = Err (ErrExpected1SectorRef 0).
Proof.
  split.
  - apply (taskToSector_exactly_one Sample.env 42 Sample.duplicated).
    split; reflexivity.
  - apply (taskToSector_exactly_one Sample.env 99 Sample.duplicated).
    + reflexivity.
    + vm_compute. discriminate.
Defined.

Lemma GetSpid_first_bound_row_witness :
  let first := mkPipelineRow 1002 3 0 (Some 42) false None None in
  let others :=
    [mkPipelineRow 1000 7 0 (Some 42) false None None;
     mkPipelineRow 1001 9 0 (Some 42) false None None] in
  GetSpid (Some (ErrExternal "closed")) Sample.scan_decimal
    Sample.several_bound 42 = EmptyString /\
  GetSpid None Sample.scan_decimal Sample.several_bound 7 = EmptyString /\
  GetSpid None (fun _ => None) Sample.several_bound 42 = EmptyString /\
  (GetSpid None Sample.scan_decimal Sample.several_bound 42
     = "1002"%string /\
   In first (sectors_sdr_pipeline Sample.several_bound) /\
   task_id_sdr first = Some 42) /\
  exists r rest,
    @None Error = None /\
    filter (db.for_task 42) (sectors_sdr_pipeline Sample.several_bound)
      = r :: rest /\
    Sample.scan_decimal (sp_id r)
      = Some (GetSpid None Sample.scan_decimal Sample.several_bound 42).
Proof.
  intros first others.
  split; [|split; [|split; [|split]]].
  - apply (proj1 (GetSpid_first_bound_row (Some (ErrExternal "closed"))
                    Sample.scan_decimal Sample.several_bound 42)).
    discriminate.
  - apply (proj1 (proj2 (GetSpid_first_bound_row None Sample.scan_decimal
                           Sample.several_bound 7))).
    reflexivity.
  - apply (proj1 (proj2 (proj2 (GetSpid_first_bound_row None (fun _ => None)
                                  Sample.several_bound 42)))
             first others); reflexivity.
  - apply (proj1 (proj2 (proj2 (proj2
             (GetSpid_first_bound_row None Sample.scan_decimal
                Sample.several_bound 42))))
             first others "1002"%string); reflexivity.
  - apply (proj2 (proj2 (proj2 (proj2
             (GetSpid_first_bound_row None Sample.scan_decimal
                Sample.several_bound 42))))).
    vm_compute. discriminate.
Defined.

(** * The arithmetic of the layout *)

(** ** The lowest set bit *)

Lemma lxor_double (a b : Z) : Z.lxor (2 * a) (2 * b) = 2 * Z.lxor a b.
Proof.
  replace (2 * a) with (Z.shiftl a 1) by (rewrite Z.shiftl_mul_pow2; lia).
  replace (2 * b) with (Z.shiftl b 1) by (rewrite Z.shiftl_mul_pow2; lia).
  replace (2 * Z.lxor a b) with (Z.shiftl (Z.lxor a b) 1)
    by (rewrite Z.shiftl_mul_pow2; lia).
  symmetry. apply Z.shiftl_lxor.
Qed.

Lemma OnesCount64_double (x : Z) : OnesCount64 (2 * x) = OnesCount64 x.
Proof. destruct x; reflexivity. Qed.

Lemma pos_trailing_zeros_nonneg (p : positive) : 0 <= pos_trailing_zeros p.
Proof. induction p; cbn [pos_trailing_zeros]; lia. Qed.

(** Clearing the lowest set bit with an exclusive or subtracts it, and
    leaves one set bit less. *)
Lemma lowest_bit (p : positive) :
  let b := 2 ^ pos_trailing_zeros p in
  0 < b <= Zpos p /\
  Z.lxor (Zpos p) b = Zpos p - b /\
  OnesCount64 (Zpos p - b) = pred (pos_ones p).
Proof.
  induction p as [q IH|q IH|]; cbn [pos_trailing_zeros pos_ones].
  - change (2 ^ 0) with 1.
    replace (Zpos q~1 - 1) with (Zpos q~0) by lia.
    repeat split; try lia; reflexivity.
  - pose proof (pos_trailing_zeros_nonneg q) as Hk.
    cbv zeta in IH. destruct IH as ((Hpos & Hle) & Hxor & Hones).
    rewrite Z.pow_add_r by lia. change (2 ^ 1) with 2.
    set (b := 2 ^ pos_trailing_zeros q) in *.
    change (Zpos q~0) with (2 * Zpos q).
    repeat split; try lia.
    + rewrite lxor_double, Hxor. lia.
    + replace (2 * Zpos q - 2 * b) with (2 * (Zpos q - b)) by lia.
      now rewrite OnesCount64_double.
  - change (2 ^ 0) with 1. repeat split; lia.
Qed.

Lemma sum_list_app (xs ys : list Z) :
  sum_list (xs ++ ys) = sum_list xs + sum_list ys.
Proof.
  unfold sum_list. induction xs as [|x xs IH]; cbn [app fold_right]; lia.
Qed.

Lemma pos_ones_pos (p : positive) : (1 <= pos_ones p)%nat.
Proof. induction p; cbn [pos_ones]; lia. Qed.

(** ** The alignment padding *)

(** The loop of [GetRequiredPadding] appends powers of two whose sum is
    what was to fill, and returns that sum. *)
Lemma pad_loop_spec (n : nat) :
  forall (toFill : Z) (padPieces : list Z) (sum : Z),
    OnesCount64 toFill = n ->
    0 <= toFill -> 0 <= sum -> sum + toFill < 2 ^ 64 ->
    exists pads,
      ffiwrapper.pad_loop n toFill padPieces sum
        = (padPieces ++ pads, sum + toFill) /\
      sum_list pads = toFill /\
      Forall (fun x => exists k, 0 <= k /\ x = 2 ^ k) pads.
Proof.
  induction n as [|n IH]; intros toFill padPieces sum Hones Ht Hs Hlt.
  - destruct toFill as [|p|p]; try lia.
    + exists []. rewrite app_nil_r, Z.add_0_r. repeat split. constructor.
    + cbn in Hones. pose proof (pos_ones_pos p). lia.
  - destruct toFill as [|p|p]; try discriminate; try lia.
    cbn [ffiwrapper.pad_loop TrailingZeros64].
    destruct (lowest_bit p) as ((Hpos & Hle) & Hxor & Hcount).
    pose proof (pos_trailing_zeros_nonneg p) as Hk.
    rewrite Z.shiftl_1_l.
    set (b := 2 ^ pos_trailing_zeros p) in *.
    rewrite (u64_small b) by lia.
    rewrite (u64_small (sum + b)) by lia.
    rewrite Hxor.
    destruct (IH (Zpos p - b) (padPieces ++ [b]) (sum + b))
      as (pads & Heq & Hsum & Hpow); try lia.
    { rewrite Hcount. cbn in Hones. now rewrite Hones. }
    exists (b :: pads). rewrite Heq, <- app_assoc. cbn [app].
    repeat split.
    + f_equal. lia.
    + unfold sum_list in *. cbn [fold_right]. lia.
    + constructor; [now exists (pos_trailing_zeros p) | exact Hpow].
Qed.

(** [GetRequiredPadding] on a new piece of non-zero length: the pad
    pieces are powers of two, they add up to the returned length, and
    that length is what brings the old length to a multiple of the new
    piece's. *)
Lemma GetRequiredPadding_spec (oldLength newPieceLength : Z) :
  0 < newPieceLength < 2 ^ 64 ->
  exists pads,
    let toFill := u64 (- oldLength) mod newPieceLength in
    ffiwrapper.GetRequiredPadding oldLength newPieceLength
      = Ok (pads, toFill) /\
    sum_list pads = toFill /\
    0 <= toFill < newPieceLength /\
    Forall (fun x => exists k, 0 <= k /\ x = 2 ^ k) pads.
Proof.
  intros Hnew. unfold ffiwrapper.GetRequiredPadding.
  destruct (Z.eqb_spec newPieceLength 0) as [Hz|_]; [lia|].
  cbv zeta.
  pose proof (Z.mod_pos_bound (u64 (- oldLength)) newPieceLength) as Hb.
  destruct (pad_loop_spec (OnesCount64 (u64 (- oldLength) mod newPieceLength))
              (u64 (- oldLength) mod newPieceLength) [] 0)
    as (pads & Heq & Hsum & Hpow); try lia.
  exists pads. rewrite Heq. cbn [app]. rewrite Z.add_0_l.
  repeat split; auto; lia.
Qed.

(** ** Padded and unpadded sizes *)

Lemma Padded_127 (c : Z) :
  0 <= c -> 128 * c < 2 ^ 64 -> abi.Padded (127 * c) = 128 * c.
Proof.
  intros Hc Hlt. unfold abi.Padded.
  replace (127 * c / 127) with c
    by (rewrite Z.mul_comm, Z.div_mul; lia).
  replace (127 * c + c) with (128 * c) by lia.
  apply u64_small. lia.
Qed.

Lemma Unpadded_128 (c : Z) :
  0 <= c -> 128 * c < 2 ^ 64 -> abi.Unpadded (128 * c) = 127 * c.
Proof.
  intros Hc Hlt. unfold abi.Unpadded.
  replace (128 * c / 128) with c
    by (rewrite Z.mul_comm, Z.div_mul; lia).
  replace (128 * c - c) with (127 * c) by lia.
  apply u64_small. lia.
Qed.

(** ** The trailing fillers *)

(** The greedy pass takes fillers whose padded sizes are distinct powers
    of two, at least 128: it accounts for [127 * c] of the remainder and
    its fillers have total padded length [128 * c]. *)
Lemma greedy_spec (k : nat) :
  forall rem,
    (k <= 57)%nat ->
    exists c,
      0 <= c < 2 ^ Z.of_nat k /\
      rem = 127 * c + snd (filler.greedy k rem) /\
      sum_list (map abi.Padded (fst (filler.greedy k rem))) = 128 * c /\
      Forall (fun f => exists j, 7 <= j < 64 /\ abi.Padded f = 2 ^ j /\
                                 f = abi.Unpadded (2 ^ j))
        (fst (filler.greedy k rem)).
Proof.
  induction k as [|k IH]; intros rem Hk.
  - exists 0. cbn. repeat split; try lia. constructor.
  - cbn [filler.greedy].
    assert (Hpow : 0 < 2 ^ Z.of_nat k <= 2 ^ 56).
    { split; [apply Z.pow_pos_nonneg; lia|].
      apply Z.pow_le_mono_r; lia. }
    assert (Hf : abi.Unpadded (2 ^ (Z.of_nat k + 7)) = 127 * 2 ^ Z.of_nat k).
    { rewrite Z.pow_add_r by lia. change (2 ^ 7) with 128.
      rewrite (Z.mul_comm _ 128). apply Unpadded_128; lia. }
    rewrite Hf.
    assert (Hpad : abi.Padded (127 * 2 ^ Z.of_nat k) = 2 ^ (Z.of_nat k + 7)).
    { rewrite Padded_127 by lia. rewrite Z.pow_add_r by lia.
      change (2 ^ 7) with 128. lia. }
    replace (2 ^ Z.of_nat (S k)) with (2 * 2 ^ Z.of_nat k)
      by (rewrite Nat2Z.inj_succ, Z.pow_succ_r; lia).
    destruct (127 * 2 ^ Z.of_nat k <=? rem).
    + destruct (IH (rem - 127 * 2 ^ Z.of_nat k)) as (c & Hc & Hrem & Hsum & Hall);
        [lia|].
      destruct (filler.greedy k (rem - 127 * 2 ^ Z.of_nat k)) as [fs rest].
      cbn [fst snd] in *.
      exists (2 ^ Z.of_nat k + c). repeat split; try lia.
      * cbn [map]. unfold sum_list in *. cbn [fold_right].
        rewrite Hsum, Hpad, Z.pow_add_r by lia. change (2 ^ 7) with 128. lia.
      * constructor; [|exact Hall].
        exists (Z.of_nat k + 7). split; [lia|]. split; [exact Hpad|].
        now rewrite Hf.
    + destruct (IH rem) as (c & Hc & Hrem & Hsum & Hall); [lia|].
      exists c. repeat split; auto; lia.
Qed.

Lemma total_padded_app (xs ys : list PieceInfo) :
  total_padded (xs ++ ys) = total_padded xs + total_padded ys.
Proof.
  unfold total_padded.
  induction xs as [|x xs IH]; cbn [app fold_right]; lia.
Qed.

Lemma total_padded_fillers (fs : list Z) :
  total_padded (map filler_piece_info fs) = sum_list (map abi.Padded fs).
Proof.
  unfold total_padded, sum_list.
  induction fs as [|f fs IH]; cbn [map fold_right Size filler_piece_info];
    [reflexivity | now rewrite IH].
Qed.

Lemma total_padded_zero_pieces (pads : list Z) :
  total_padded (map zero_piece_info pads) = sum_list pads.
Proof.
  unfold total_padded, sum_list.
  induction pads as [|f fs IH]; cbn [map fold_right Size zero_piece_info];
    [reflexivity | now rewrite IH].
Qed.

(** What [FillersFromRem] accepts is a multiple of 127 below [2^63], and
    its fillers, once padded, are powers of two from 128 up whose total
    is that multiple of 128. *)
Lemma FillersFromRem_spec (rem : Z) (fs : list Z) :
  filler.FillersFromRem rem = Ok fs ->
  exists c,
    0 <= c /\ rem = 127 * c /\ rem < 2 ^ 63 /\
    total_padded (map filler_piece_info fs) = 128 * c /\
    Forall (fun f => exists j, 7 <= j < 64 /\ abi.Padded f = 2 ^ j /\
                               f = abi.Unpadded (2 ^ j)) fs.
Proof.
  unfold filler.FillersFromRem.
  destruct (Z.leb_spec (2 ^ 63) rem) as [|Hlt]; [discriminate|].
  destruct (greedy_spec 57 rem) as (c & Hc & Hrem & Hsum & Hall); [lia|].
  destruct (filler.greedy 57 rem) as [gs rest]. cbn [fst snd] in *.
  destruct (Z.eqb_spec rest 0) as [Hz|]; [|discriminate].
  intros Heq. inversion Heq; subst gs.
  exists c. rewrite total_padded_fillers. repeat split; auto; lia.
Qed.

(** ** The layout of full pieces *)

Lemma u64_neg_128 (a : Z) : u64 (- (128 * a)) = 128 * ((- a) mod 2 ^ 57).
Proof.
  unfold u64. replace (- (128 * a)) with (128 * - a) by lia.
  change (2 ^ 64) with (128 * 2 ^ 57).
  apply Z.mul_mod_distr_l; lia.
Qed.

Lemma Ok_inj {A} (a b : A) : Ok a = Ok b -> a = b.
Proof. intros Heq. now injection Heq. Qed.

Lemma Size_mk (size : Z) (c : Cid) : Size (mkPieceInfo size c) = size.
Proof. reflexivity. Qed.

Lemma total_padded_one (i : PieceInfo) : total_padded [i] = Size i.
Proof. unfold total_padded. cbn [fold_right]. lia. Qed.

(** One iteration on a full piece, from an offset that is the unpadded
    size of the layout so far: the same holds after it, and the layout
    has grown by the alignment padding, less than the piece, and by the
    piece. *)
Lemma layout_piece_full (env : Env) (a : Z) (infos : list PieceInfo)
    (p : Piece) (st' : Layout) :
  full_piece p = true ->
  0 <= a ->
  total_padded infos = 128 * a ->
  128 * a + 2 * u64 (PieceSize p) < 2 ^ 64 ->
  layout_piece env (127 * a, infos) p = Ok st' ->
  exists a' infos' pads c,
    st' = (127 * a', infos') /\
    total_padded infos' = 128 * a' /\
    a <= a' /\
    128 * a' < 128 * a + 2 * u64 (PieceSize p) /\
    cid_Parse env (PieceCIDText p) = Ok c /\
    infos' =
      (infos ++ map zero_piece_info pads)
      ++ [mkPieceInfo (u64 (PieceSize p)) c] /\
    Forall (fun x => exists k, 0 <= k /\ x = 2 ^ k) pads /\
    ((u64 (PieceSize p) | 2 ^ 64) ->
     (128 * a + sum_list pads) mod u64 (PieceSize p) = 0).
Proof.
  intros Hfull Ha Htotal Hroom.
  unfold layout_piece.
  unfold full_piece in Hfull.
  destruct (DataRawSize p) as [raw|] eqn:Hraw; [|discriminate].
  apply andb_prop in Hfull. destruct Hfull as [Hfull Hrawsize].
  apply andb_prop in Hfull. destruct Hfull as [Hnz Hmod].
  apply negb_true_iff, Z.eqb_neq in Hnz.
  apply Z.eqb_eq in Hmod. apply Z.eqb_eq in Hrawsize.
  pose proof (u64_range (PieceSize p)) as Hsize.
  set (size := u64 (PieceSize p)) in *.
  assert (Hm : exists m, 0 < m /\ size = 128 * m).
  { exists (size / 128). pose proof (Z.div_mod size 128). lia. }
  destruct Hm as (m & Hmpos & Hsizem).
  destruct (cid_Parse env (PieceCIDText p)) as [c| |]; try discriminate.
  rewrite Padded_127 by lia.
  assert (Haligned : (size | 2 ^ 64) ->
                     (128 * a + u64 (- (128 * a)) mod size) mod size = 0).
  { intros Hdiv. unfold u64.
    rewrite Z.mod_mod_divide by exact Hdiv.
    rewrite Z.add_mod_idemp_r by lia.
    replace (128 * a + - (128 * a)) with 0 by lia.
    apply Z.mod_0_l. lia. }
  destruct (GetRequiredPadding_spec (128 * a) size) as (pads & Hpad); [lia|].
  cbv zeta in Hpad. destruct Hpad as (Hget & Hsum & Hfill & Hpow).
  rewrite Hget.
  assert (Ht : exists t, 0 <= t /\ u64 (- (128 * a)) mod size = 128 * t).
  { exists (((- a) mod 2 ^ 57) mod m). split.
    - apply Z.mod_pos_bound. lia.
    - rewrite u64_neg_128, Hsizem. apply Z.mul_mod_distr_l; lia. }
  destruct Ht as (t & Htpos & Ht). rewrite Ht in *.
  rewrite Unpadded_128 by lia.
  rewrite Hrawsize, Hsizem, Unpadded_128 by lia.
  replace (127 * a + 127 * t) with (127 * (a + t)) by lia.
  rewrite (u64_small (127 * (a + t))) by lia.
  replace (127 * (a + t) + 127 * m) with (127 * (a + t + m)) by lia.
  rewrite (u64_small (127 * (a + t + m))) by lia.
  intros Heq. apply Ok_inj in Heq. subst st'.
  exists (a + t + m). eexists. exists pads, c.
  split; [reflexivity|].
  rewrite !total_padded_app, total_padded_zero_pieces, Hsum, Htotal.
  rewrite total_padded_one, Size_mk.
  repeat split; try lia; try reflexivity; try exact Hpow.
  rewrite <- Hsizem. exact Haligned.
Qed.

Lemma layout_pieces_full (env : Env) (pieces : list Piece) :
  forall (a : Z) (infos : list PieceInfo) (st' : Layout),
    forallb full_piece pieces = true ->
    0 <= a ->
    total_padded infos = 128 * a ->
    128 * a + 2 * declared_size pieces < 2 ^ 64 ->
    layout_pieces env (127 * a, infos) pieces = Ok st' ->
    exists a' infos',
      st' = (127 * a', infos') /\
      total_padded infos' = 128 * a' /\
      0 <= a' /\ 128 * a' < 2 ^ 64.
Proof.
  induction pieces as [|p ps IH]; intros a infos st' Hfull Ha Htotal Hroom.
  - cbn. intros Heq. inversion Heq. exists a, infos.
    unfold declared_size, sum_list in Hroom. cbn in Hroom.
    repeat split; auto; lia.
  - cbn [forallb] in Hfull. apply andb_prop in Hfull.
    destruct Hfull as [Hp Hps].
    unfold declared_size, sum_list in Hroom. cbn [map fold_right] in Hroom.
    fold (sum_list (map (fun p => u64 (PieceSize p)) ps)) in Hroom.
    fold (declared_size ps) in Hroom.
    assert (Hdecl : 0 <= declared_size ps).
    { clear. unfold declared_size, sum_list.
      induction ps as [|q qs IHq]; cbn [map fold_right]; [lia|].
      pose proof (u64_range (PieceSize q)). lia. }
    pose proof (u64_range (PieceSize p)) as Hsize.
    unfold layout_pieces; fold layout_pieces.
    destruct (layout_piece env (127 * a, infos) p) as [st1| |] eqn:Hstep;
      try discriminate.
    destruct (layout_piece_full env a infos p st1 Hp Ha Htotal)
      as (a1 & infos1 & pads & c & -> & Htotal1 & Hle & Hlt & _);
      [lia | exact Hstep |].
    apply IH; auto; lia.
Qed.

(** ** The layout that reaches the aggregation *)

Lemma Do_commd_aggregates (env : Env) (proof ssize : Z) (pieces : list Piece)
    (w : World) (proof' : Z) (infos : list PieceInfo) :
  In (CallGenerateUnsealedCID proof' infos)
    (trace (Do_commd env proof ssize pieces w)) ->
  proof' = proof /\
  exists offset pieceInfos fillerSize,
    layout_pieces env (0, []) pieces = Ok (offset, pieceInfos) /\
    filler.FillersFromRem (u64 (abi.Unpadded ssize - offset))
      = Ok fillerSize /\
    infos = pieceInfos ++ map filler_piece_info fillerSize.
Proof.
  unfold Do_commd, bind, lift, call, ret, after, wrap_err.
  destruct (0 <? length pieces)%nat; [|intros []].
  destruct (layout_pieces env (0, []) pieces) as [[offset pieceInfos]| |]
    eqn:Hloop; cbn; try (intros Hin; contradiction).
  destruct (filler.FillersFromRem _) as [fillerSize| |] eqn:Hfill; cbn;
    try (intros Hin; contradiction).
  destruct (GenerateUnsealedCID env proof
              (pieceInfos ++ map filler_piece_info fillerSize)); cbn;
    (intros [Heq|[]]; inversion Heq; subst; split; [reflexivity|];
     now exists offset, pieceInfos, fillerSize).
Qed.

Lemma Do_finish_never_aggregates (env : Env) (taskID : Z)
    (params : SectorParams) (commd : Cid) (w : World) :
  Forall (fun c => is_aggregation c = false)
    (trace (Do_finish env taskID params commd w)).
Proof.
  unfold_task. cbn.
  repeat (split_run; try (now repeat constructor)).
Qed.

Lemma Do_aggregates_in_commd (env : Env) (taskID : Z)
    (stillOwned : unit -> bool) (w : World) (params : SectorParams)
    (pieces : list Piece) (ssize proof : Z) (infos : list PieceInfo) :
  loaded env taskID w params pieces ssize ->
  In (CallGenerateUnsealedCID proof infos)
    (trace (Do env taskID stillOwned w)) ->
  In (CallGenerateUnsealedCID proof infos)
    (trace (Do_commd env (RegSealProof params) ssize pieces w)).
Proof.
  intros Hl. rewrite (Do_loaded _ _ _ _ _ _ _ Hl). unfold bind.
  destruct (Do_commd env (RegSealProof params) ssize pieces w)
    as [tc wc [commd|e|k]]; cbn.
  - pose proof (Do_finish_never_aggregates env taskID params commd wc) as Hno.
    destruct (Do_finish env taskID params commd wc) as [tf wf rf]. cbn in *.
    intros [Hin|[Hin|Hin]]; try discriminate.
    apply in_app_or in Hin. destruct Hin as [Hin|Hin]; [exact Hin|].
    rewrite Forall_forall in Hno. specialize (Hno _ Hin). discriminate.
  - intros [Hin|[Hin|Hin]]; try discriminate. exact Hin.
  - intros [Hin|[Hin|Hin]]; try discriminate. exact Hin.
Qed.

(** X12: When every piece fills its padded size, the layout that [Do] hands
    to the aggregation has exactly the length of the sector: the
    alignment fillers, the pieces and the trailing fillers add up to the
    sector size, for the proof type of the sector. *)
Theorem Do_layout_fills_sector (env : Env) (taskID : Z)
    (stillOwned : unit -> bool) (w : World) (params : SectorParams)
    (pieces : list Piece) (ssize proof : Z) (infos : list PieceInfo) :
  loaded env taskID w params pieces ssize ->
  forallb full_piece pieces = true ->
  declared_size pieces < 2 ^ 63 ->
  0 <= ssize < 2 ^ 64 ->
  ssize mod 128 = 0 ->
  In (CallGenerateUnsealedCID proof infos)
    (trace (Do env taskID stillOwned w)) ->
  total_padded infos = ssize /\ proof = RegSealProof params.
Proof.
  intros Hl Hfull Hdecl Hss Hmod Hin.
  apply (Do_aggregates_in_commd _ _ _ _ _ _ _ _ _ Hl) in Hin.
  apply Do_commd_aggregates in Hin.
  destruct Hin as (Hproof & offset & pieceInfos & fs & Hloop & Hfill & ->).
  split; [|exact Hproof].
  destruct (layout_pieces_full env pieces 0 [] (offset, pieceInfos))
    as (a & infos' & Heq & Htotal & Ha & Hbound); auto; try lia.
  apply pair_equal_spec in Heq. destruct Heq as [-> ->].
  destruct (FillersFromRem_spec _ _ Hfill) as (c & Hc & Hrem & Hlt & Hfs & _).
  assert (Hs : exists s, 0 <= s /\ ssize = 128 * s).
  { exists (ssize / 128). pose proof (Z.div_mod ssize 128). lia. }
  destruct Hs as (s & Hspos & ->).
  rewrite Unpadded_128 in Hrem by lia.
  rewrite total_padded_app, Htotal, Hfs.
  destruct (Z.le_gt_cases a s) as [Hle|Hgt].
  - rewrite u64_small in Hrem by lia. lia.
  - exfalso.
    assert (Hwrap : u64 (127 * s - 127 * a) = 127 * s - 127 * a + 2 ^ 64).
    { unfold u64. symmetry. apply Z.mod_unique with (q := -1); lia. }
    rewrite Hwrap in Hrem.
    assert (H2 : 2 ^ 64 mod 127 = 2) by reflexivity.
    replace (2 ^ 64) with (127 * (c + a - s)) in H2 by lia.
    rewrite Z.mul_comm, Z.mod_mul in H2 by lia. discriminate.
Qed.

Lemma Do_layout_fills_sector_witness :
  total_padded
    [mkPieceInfo 1024 (CidOf "p0"); mkPieceInfo 1024 (CidOf "p1")] = 2048 /\
  0 = RegSealProof (mkSectorParams 1000 7 0).
Proof.
  apply (Do_layout_fills_sector Sample.env 42 Sample.owned Sample.two_halves
           (mkSectorParams 1000 7 0)
           [mkPiece 0 "p0" 1024 (Some 1016); mkPiece 1 "p1" 1024 (Some 1016)]
           2048 0).
  - repeat split; reflexivity.
  - reflexivity.
  - vm_compute. reflexivity.
  - lia.
  - reflexivity.
  - vm_compute. tauto.
Defined.

(** ** The shape of the layout *)

Lemma interleaved_fillers (env : Env) (l : list PieceInfo) :
  Forall is_filler l -> interleaved env [] l.
Proof.
  induction 1 as [|i l Hi _ IH]; [constructor|].
  now apply interleaved_filler.
Qed.

Lemma interleaved_app (env : Env) (ps qs : list Piece)
    (l js : list PieceInfo) :
  interleaved env ps l -> interleaved env qs js ->
  interleaved env (ps ++ qs) (l ++ js).
Proof.
  induction 1 as [|i ps l Hi _ IH|p c ps l Hc _ IH]; intros Hq; cbn [app].
  - exact Hq.
  - apply interleaved_filler; auto.
  - apply interleaved_piece; auto.
Qed.

Lemma zero_pieces_are_fillers (pads : list Z) :
  Forall (fun x => exists k, 0 <= k /\ x = 2 ^ k) pads ->
  Forall is_filler (map zero_piece_info pads).
Proof.
  induction 1 as [|x xs (k & Hk & ->) _ IH]; cbn [map]; constructor; auto.
  split; [now exists k | reflexivity].
Qed.

Lemma trailing_fillers_are_fillers (fs : list Z) :
  Forall (fun f => exists j, 7 <= j < 64 /\ abi.Padded f = 2 ^ j /\
                             f = abi.Unpadded (2 ^ j)) fs ->
  Forall is_filler (map filler_piece_info fs).
Proof.
  induction 1 as [|f fs (j & Hj & Hpad & Hf) _ IH]; cbn [map];
    constructor; auto.
  unfold is_filler, filler_piece_info. cbn [Size PieceCID]. split.
  - exists j. split; [lia | exact Hpad].
  - now rewrite Hpad, <- Hf.
Qed.

(** One iteration appends fillers and then the piece. *)
Lemma layout_piece_shape (env : Env) (offset : Z) (infos : list PieceInfo)
    (p : Piece) (st' : Layout) :
  layout_piece env (offset, infos) p = Ok st' ->
  exists more, snd st' = infos ++ more /\ interleaved env [p] more.
Proof.
  unfold layout_piece.
  destruct (cid_Parse env (PieceCIDText p)) as [c| |] eqn:Hc;
    try discriminate.
  pose proof (u64_range (PieceSize p)) as Hsize.
  destruct (Z.eq_dec (u64 (PieceSize p)) 0) as [Hz|Hnz].
  { unfold ffiwrapper.GetRequiredPadding. rewrite Hz. discriminate. }
  destruct (GetRequiredPadding_spec (abi.Padded offset) (u64 (PieceSize p)))
    as (pads & Hget & _ & _ & Hpow); [lia|].
  rewrite Hget.
  destruct (DataRawSize p); [|discriminate].
  intros Heq. apply Ok_inj in Heq. subst st'. cbn [snd].
  exists (map zero_piece_info pads ++ [mkPieceInfo (u64 (PieceSize p)) c]).
  split; [now rewrite app_assoc|].
  apply (interleaved_app env [] [p]).
  - apply interleaved_fillers, zero_pieces_are_fillers, Hpow.
  - apply interleaved_piece; [exact Hc | constructor].
Qed.

Lemma layout_pieces_shape (env : Env) (pieces : list Piece) :
  forall (st st' : Layout),
    layout_pieces env st pieces = Ok st' ->
    exists more, snd st' = snd st ++ more /\ interleaved env pieces more.
Proof.
  induction pieces as [|p ps IH]; intros st st'.
  - cbn. intros Heq. apply Ok_inj in Heq. subst st'.
    exists []. split; [now rewrite app_nil_r | constructor].
  - unfold layout_pieces; fold layout_pieces.
    destruct (layout_piece env st p) as [st1| |] eqn:Hstep; try discriminate.
    intros Hrest. destruct st as [offset infos].
    destruct (layout_piece_shape _ _ _ _ _ Hstep) as (m1 & H1 & Hi1).
    destruct (IH _ _ Hrest) as (m2 & H2 & Hi2).
    exists (m1 ++ m2). cbn [snd]. split.
    + now rewrite H2, H1, app_assoc.
    + apply (interleaved_app env [p] ps); assumption.
Qed.

(** X13: The layout that [Do] hands to the aggregation holds every piece
    record of the sector exactly once, in index order, with its declared
    padded size and its parsed commitment; everything else in it is a
    zero-commitment filler whose padded size is a power of two. *)
Theorem Do_layout_interleaves_pieces (env : Env) (taskID : Z)
    (stillOwned : unit -> bool) (w : World) (params : SectorParams)
    (pieces : list Piece) (ssize proof : Z) (infos : list PieceInfo) :
  loaded env taskID w params pieces ssize ->
  In (CallGenerateUnsealedCID proof infos)
    (trace (Do env taskID stillOwned w)) ->
  interleaved env pieces infos.
Proof.
  intros Hl Hin.
  apply (Do_aggregates_in_commd _ _ _ _ _ _ _ _ _ Hl) in Hin.
  apply Do_commd_aggregates in Hin.
  destruct Hin as (_ & offset & pieceInfos & fs & Hloop & Hfill & ->).
  destruct (layout_pieces_shape _ _ _ _ Hloop) as (more & Hmore & Hshape).
  cbn [snd app] in Hmore. subst pieceInfos.
  destruct (FillersFromRem_spec _ _ Hfill) as (c & _ & _ & _ & _ & Hfs).
  rewrite <- (app_nil_r pieces).
  apply interleaved_app; [exact Hshape|].
  apply interleaved_fillers, trailing_fillers_are_fillers, Hfs.
Qed.

Lemma Do_layout_interleaves_pieces_witness :
  interleaved Sample.env
    [mkPiece 0 "p0" 1024 (Some 889); mkPiece 1 "p1" 1024 (Some 1016)]
    [mkPieceInfo 1024 (CidOf "p0"); mkPieceInfo 128 (ZeroComm 127);
     mkPieceInfo 1024 (CidOf "p1")].
Proof.
  apply (Do_layout_interleaves_pieces Sample.env 42 Sample.owned
           Sample.short_first_piece (mkSectorParams 1000 7 0) _ 2048 0).
  - repeat split; reflexivity.
  - vm_compute. tauto.
Defined.

(** ** Alignment *)

Lemma declared_size_app (ps qs : list Piece) :
  declared_size (ps ++ qs) = declared_size ps + declared_size qs.
Proof. unfold declared_size. now rewrite map_app, sum_list_app. Qed.

Lemma declared_size_nonneg (ps : list Piece) : 0 <= declared_size ps.
Proof.
  unfold declared_size, sum_list.
  induction ps as [|q qs IH]; cbn [map fold_right]; [lia|].
  pose proof (u64_range (PieceSize q)). lia.
Qed.

(** X14: When every piece fills its padded size and the padded sizes are
    powers of two, [Do] places every piece at a multiple of its own
    padded size: in the layout handed to the aggregation, what precedes
    a piece (the earlier pieces and the fillers) has a total padded
    length that the padded size of the piece divides. *)
Theorem Do_places_pieces_aligned (env : Env) (taskID : Z)
    (stillOwned : unit -> bool) (w : World) (params : SectorParams)
    (pieces l1 l2 : list Piece) (p : Piece) (ssize proof : Z)
    (infos : list PieceInfo) :
  loaded env taskID w params pieces ssize ->
  forallb full_piece pieces = true ->
  Forall (fun q => (u64 (PieceSize q) | 2 ^ 64)) pieces ->
  declared_size pieces < 2 ^ 63 ->
  In (CallGenerateUnsealedCID proof infos)
    (trace (Do env taskID stillOwned w)) ->
  pieces = l1 ++ p :: l2 ->
  exists before c following,
    infos = before ++ mkPieceInfo (u64 (PieceSize p)) c :: following /\
    cid_Parse env (PieceCIDText p) = Ok c /\
    interleaved env l1 before /\
    interleaved env l2 following /\
    total_padded before mod u64 (PieceSize p) = 0.
Proof.
  intros Hl Hfull Hpow Hdecl Hin ->.
  apply (Do_aggregates_in_commd _ _ _ _ _ _ _ _ _ Hl) in Hin.
  apply Do_commd_aggregates in Hin.
  destruct Hin as (_ & offset & pieceInfos & fs & Hloop & Hfill & ->).
  rewrite forallb_app in Hfull. cbn [forallb] in Hfull.
  apply andb_prop in Hfull. destruct Hfull as [Hfull1 Hfull2].
  apply andb_prop in Hfull2. destruct Hfull2 as [Hp Hfull2].
  rewrite declared_size_app in Hdecl.
  change (p :: l2) with ([p] ++ l2) in Hdecl.
  rewrite declared_size_app in Hdecl.
  pose proof (declared_size_nonneg l1) as Hn1.
  pose proof (declared_size_nonneg l2) as Hn2.
  assert (Hdp : declared_size [p] = u64 (PieceSize p))
    by (unfold declared_size, sum_list; cbn; lia).
  pose proof (u64_range (PieceSize p)) as Hsize.
  apply Forall_app in Hpow. destruct Hpow as [_ Hpow].
  apply Forall_inv in Hpow.
  rewrite layout_pieces_app in Hloop.
  destruct (layout_pieces env (0, []) l1) as [st1| |] eqn:H1;
    try discriminate.
  destruct (layout_pieces_full env l1 0 [] st1)
    as (a & infos1 & -> & Htotal1 & Ha & Hbound1); auto; try lia.
  destruct (layout_pieces_shape _ _ _ _ H1) as (m1 & Hm1 & Hi1).
  cbn [snd app] in Hm1. subst infos1.
  unfold layout_pieces in Hloop; fold layout_pieces in Hloop.
  destruct (layout_piece env (127 * a, m1) p) as [st2| |] eqn:H2;
    try discriminate.
  assert (Hroom : 128 * a < 2 * declared_size l1 + 1).
  { clear -H1 Hfull1 Hn1 Hdecl Hn2 Hsize Hdp Htotal1.
    assert (Hgen : forall ps b infos st',
               forallb full_piece ps = true -> 0 <= b ->
               total_padded infos = 128 * b ->
               128 * b + 2 * declared_size ps < 2 ^ 64 ->
               layout_pieces env (127 * b, infos) ps = Ok st' ->
               total_padded (snd st') <= 128 * b + 2 * declared_size ps).
    { induction ps as [|q qs IH]; intros b infos st' Hf Hb Ht Hr.
      - unfold layout_pieces. intros Heq. apply Ok_inj in Heq.
        subst st'. cbn [snd].
        pose proof (declared_size_nonneg []). lia.
      - cbn [forallb] in Hf. apply andb_prop in Hf. destruct Hf as [Hq Hqs].
        change (q :: qs) with ([q] ++ qs) in *.
        rewrite declared_size_app in *.
        assert (Hdq : declared_size [q] = u64 (PieceSize q))
          by (unfold declared_size, sum_list; cbn; lia).
        pose proof (declared_size_nonneg qs).
        pose proof (u64_range (PieceSize q)).
        cbn [app]. unfold layout_pieces; fold layout_pieces.
        destruct (layout_piece env (127 * b, infos) q) as [s1| |] eqn:Hs;
          try discriminate.
        destruct (layout_piece_full env b infos q s1 Hq Hb Ht)
          as (b1 & i1 & pads & c & -> & Ht1 & Hle & Hlt & _);
          [lia | exact Hs |].
        intros Hrest.
        assert (Hih : total_padded (snd st')
                      <= 128 * b1 + 2 * declared_size qs)
          by (apply (IH b1 i1 st' Hqs); auto; lia).
        lia. }
    specialize (Hgen l1 0 [] (127 * a, m1) Hfull1).
    cbn [snd] in Hgen. rewrite Htotal1 in Hgen.
    assert (128 * a <= 128 * 0 + 2 * declared_size l1)
      by (apply Hgen; try reflexivity; try exact H1; lia).
    lia. }
  destruct (layout_piece_full env a m1 p st2 Hp Ha Htotal1)
    as (a2 & infos2 & pads & c & -> & Htotal2 & Hle & Hlt & Hc & -> &
        Hpw & Halign);
    [lia | exact H2 |].
  destruct (layout_pieces_shape _ _ _ _ Hloop) as (m2 & Hm2 & Hi2).
  cbn [snd] in Hm2. subst pieceInfos.
  destruct (FillersFromRem_spec _ _ Hfill) as (c0 & _ & _ & _ & _ & Hfs).
  exists (m1 ++ map zero_piece_info pads), c,
    (m2 ++ map filler_piece_info fs).
  split; [now rewrite <- !app_assoc|].
  split; [exact Hc|]. split; [|split].
  - rewrite <- (app_nil_r l1). apply interleaved_app; [exact Hi1|].
    apply interleaved_fillers, zero_pieces_are_fillers, Hpw.
  - rewrite <- (app_nil_r l2). apply interleaved_app; [exact Hi2|].
    apply interleaved_fillers, trailing_fillers_are_fillers, Hfs.
  - rewrite total_padded_app, total_padded_zero_pieces, Htotal1.
    now apply Halign.
Qed.

Lemma Do_places_pieces_aligned_witness :
  exists before c following,
    [mkPieceInfo 512 (CidOf "p0"); mkPieceInfo 512 (ZeroComm 508);
     mkPieceInfo 1024 (CidOf "p1")]
    = before ++ mkPieceInfo (u64 1024) c :: following /\
    cid_Parse Sample.env "p1" = Ok c /\
    interleaved Sample.env [mkPiece 0 "p0" 512 (Some 508)] before /\
    interleaved Sample.env [] following /\
    total_padded before mod u64 1024 = 0.
Proof.
  apply (Do_places_pieces_aligned Sample.env 42 Sample.owned
           Sample.small_then_large (mkSectorParams 1000 7 0)
           [mkPiece 0 "p0" 512 (Some 508); mkPiece 1 "p1" 1024 (Some 1016)]
           [mkPiece 0 "p0" 512 (Some 508)] []
           (mkPiece 1 "p1" 1024 (Some 1016)) 2048 0).
  - repeat split; reflexivity.
  - reflexivity.
  - repeat constructor.
    + exists (2 ^ 55). reflexivity.
    + exists (2 ^ 54). reflexivity.
  - vm_compute. reflexivity.
  - vm_compute. tauto.
  - reflexivity.
Defined.

(** * The order of the piece rows *)

(** ** [ORDER BY piece_index ASC] *)

Lemma insert_by_index_perm (r : InitialPieceRow) (rs : list InitialPieceRow) :
  Permutation (db.insert_by_index r rs) (r :: rs).
Proof.
  induction rs as [|x xs IH]; cbn [db.insert_by_index]; [reflexivity|].
  destruct (piece_index r <=? piece_index x); [reflexivity|].
  rewrite IH. apply perm_swap.
Qed.

Lemma order_by_piece_index_perm (rs : list InitialPieceRow) :
  Permutation (db.order_by_piece_index rs) rs.
Proof.
  unfold db.order_by_piece_index.
  induction rs as [|r rs IH]; cbn [fold_right]; [reflexivity|].
  rewrite insert_by_index_perm. now constructor.
Qed.

Lemma insert_by_index_sorted (r : InitialPieceRow)
    (rs : list InitialPieceRow) :
  StronglySorted by_index rs ->
  StronglySorted by_index (db.insert_by_index r rs).
Proof.
  induction 1 as [|x xs Hs IH Hall]; cbn [db.insert_by_index].
  - repeat constructor.
  - destruct (Z.leb_spec (piece_index r) (piece_index x)) as [Hle|Hgt].
    + constructor; [now constructor|].
      constructor; [exact Hle|].
      rewrite Forall_forall in *. intros y Hy.
      specialize (Hall y Hy). unfold by_index in *. lia.
    + constructor; [exact IH|].
      rewrite Forall_forall in *. intros y Hy.
      apply (Permutation_in _ (insert_by_index_perm r xs)) in Hy.
      destruct Hy as [<-|Hy]; [unfold by_index; lia | auto].
Qed.

Lemma order_by_piece_index_sorted (rs : list InitialPieceRow) :
  StronglySorted by_index (db.order_by_piece_index rs).
Proof.
  unfold db.order_by_piece_index.
  induction rs as [|r rs IH]; cbn [fold_right]; [constructor|].
  now apply insert_by_index_sorted.
Qed.

(** Two lists in index order with the same rows, whose indices are
    distinct, are the same list. *)
Lemma sorted_perm_unique (l1 : list InitialPieceRow) :
  forall l2,
    StronglySorted by_index l1 -> StronglySorted by_index l2 ->
    Permutation l1 l2 ->
    NoDup (map piece_index l1) ->
    l1 = l2.
Proof.
  induction l1 as [|x xs IH]; intros l2 Hs1 Hs2 Hperm Hnd.
  - apply Permutation_nil in Hperm. now subst.
  - destruct l2 as [|y ys].
    { apply Permutation_sym, Permutation_nil in Hperm. discriminate. }
    inversion Hs1 as [|? ? Hsx Hallx]; subst.
    inversion Hs2 as [|? ? Hsy Hally]; subst.
    assert (Hxy : x = y).
    { assert (Hin1 : In y (x :: xs))
        by (apply (Permutation_in _ (Permutation_sym Hperm)); now left).
      assert (Hin2 : In x (y :: ys))
        by (apply (Permutation_in _ Hperm); now left).
      destruct Hin1 as [Heq|Hin1]; [exact Heq|].
      destruct Hin2 as [Heq|Hin2]; [now symmetry|].
      rewrite Forall_forall in Hallx, Hally.
      specialize (Hallx y Hin1). specialize (Hally x Hin2).
      unfold by_index in *.
      assert (Hkey : piece_index x = piece_index y) by lia.
      cbn [map] in Hnd. inversion Hnd as [|? ? Hnotin _]; subst.
      exfalso. apply Hnotin. rewrite Hkey. now apply in_map. }
    subst y. f_equal.
    apply IH; auto.
    + now apply Permutation_cons_inv in Hperm.
    + cbn [map] in Hnd. now inversion Hnd.
Qed.

Lemma order_by_piece_index_perm_eq (l1 l2 : list InitialPieceRow) :
  Permutation l1 l2 ->
  NoDup (map piece_index l1) ->
  db.order_by_piece_index l1 = db.order_by_piece_index l2.
Proof.
  intros Hperm Hnd.
  apply sorted_perm_unique.
  - apply order_by_piece_index_sorted.
  - apply order_by_piece_index_sorted.
  - rewrite !order_by_piece_index_perm. exact Hperm.
  - apply (Permutation_NoDup (l := map piece_index l1)); [|exact Hnd].
    apply Permutation_map, Permutation_sym, order_by_piece_index_perm.
Qed.


(** ** What [Do] reads of the piece table *)

Lemma Do_commd_world (env : Env) (proof ssize : Z) (pieces : list Piece)
    (w w' : World) :
  Do_commd env proof ssize pieces w' =
  mkRun (trace (Do_commd env proof ssize pieces w)) w'
    (result (Do_commd env proof ssize pieces w)).
Proof.
  unfold Do_commd, bind, lift, call, ret, after, wrap_err.
  repeat (split_run; try reflexivity).
Qed.

Lemma Do_finish_world (env : Env) (taskID : Z) (params : SectorParams)
    (commd : Cid) (w w' : World) :
  sectors_sdr_pipeline w' = sectors_sdr_pipeline w ->
  trace (Do_finish env taskID params commd w')
    = trace (Do_finish env taskID params commd w) /\
  result (Do_finish env taskID params commd w')
    = result (Do_finish env taskID params commd w) /\
  sectors_sdr_pipeline (final (Do_finish env taskID params commd w'))
    = sectors_sdr_pipeline (final (Do_finish env taskID params commd w)).
Proof.
  intros Hpipe. unfold_task. cbn.
  repeat (first [rewrite Hpipe | split_run]; try (now repeat split)).
Qed.

(** X15: [Do] does not depend on the physical order of the piece rows, nor on
    the rows of other sectors: when the piece indices of the sector are
    distinct, a piece table that holds the same rows for the sector, in
    any order and among any other rows, gives the same calls, the same
    result and the same pipeline table. *)
Theorem Do_ignores_row_order (env : Env) (taskID : Z)
    (stillOwned : unit -> bool) (w w' : World) (params : SectorParams)
    (pieces : list Piece) (ssize : Z) :
  loaded env taskID w params pieces ssize ->
  NoDup (map PieceIndex pieces) ->
  sectors_sdr_pipeline w' = sectors_sdr_pipeline w ->
  Permutation
    (filter (db.piece_of_sector (SpID params) (SectorNumber params))
       (sectors_sdr_initial_pieces w))
    (filter (db.piece_of_sector (SpID params) (SectorNumber params))
       (sectors_sdr_initial_pieces w')) ->
  trace (Do env taskID stillOwned w') = trace (Do env taskID stillOwned w) /\
  result (Do env taskID stillOwned w') = result (Do env taskID stillOwned w) /\
  sectors_sdr_pipeline (final (Do env taskID stillOwned w'))
    = sectors_sdr_pipeline (final (Do env taskID stillOwned w)).
Proof.
  intros Hl Hnd Hpipe Hperm.
  assert (Hl' : loaded env taskID w' params pieces ssize).
  { destruct Hl as (Hf1 & Hrow & Hf2 & Hpieces & Hsize).
    repeat split; auto.
    - now rewrite Hpipe.
    - rewrite <- Hpieces. f_equal. symmetry.
      apply order_by_piece_index_perm_eq; [exact Hperm|].
      subst pieces. rewrite map_map in Hnd. cbn [PieceIndex db.scan_piece] in Hnd.
      apply (Permutation_NoDup (l := map piece_index
               (db.order_by_piece_index
                  (filter (db.piece_of_sector (SpID params)
                             (SectorNumber params))
                     (sectors_sdr_initial_pieces w))))); [|exact Hnd].
      apply Permutation_map, order_by_piece_index_perm. }
  rewrite (Do_loaded _ _ stillOwned _ _ _ _ Hl).
  rewrite (Do_loaded _ _ stillOwned _ _ _ _ Hl').
  unfold bind.
  rewrite (Do_commd_world env (RegSealProof params) ssize pieces w w').
  destruct (Do_commd env (RegSealProof params) ssize pieces w)
    as [tc wc [commd|e|k]] eqn:Hc; cbn [trace result].
  - assert (Hwc : wc = w).
    { pose proof (Do_commd_world env (RegSealProof params) ssize pieces w w)
        as Hself.
      rewrite Hc in Hself. cbn in Hself. now inversion Hself. }
    subst wc.
    destruct (Do_finish_world env taskID params commd w w' Hpipe)
      as (Ht & Hr & Hp).
    destruct (Do_finish env taskID params commd w) as [t1 w1 r1].
    destruct (Do_finish env taskID params commd w') as [t2 w2 r2].
    cbn in *. subst. repeat split. exact Hp.
  - assert (Hwc : wc = w).
    { pose proof (Do_commd_world env (RegSealProof params) ssize pieces w w)
        as Hself.
      rewrite Hc in Hself. cbn in Hself. now inversion Hself. }
    subst wc. cbn. repeat split. now symmetry.
  - assert (Hwc : wc = w).
    { pose proof (Do_commd_world env (RegSealProof params) ssize pieces w w)
        as Hself.
      rewrite Hc in Hself. cbn in Hself. now inversion Hself. }
    subst wc. cbn. repeat split. now symmetry.
Qed.

Lemma Do_ignores_row_order_witness :
  trace (Do Sample.env 42 Sample.owned Sample.two_halves_reordered)
    = trace (Do Sample.env 42 Sample.owned Sample.two_halves) /\
  result (Do Sample.env 42 Sample.owned Sample.two_halves_reordered)
    = result (Do Sample.env 42 Sample.owned Sample.two_halves) /\
  sectors_sdr_pipeline
    (final (Do Sample.env 42 Sample.owned Sample.two_halves_reordered))
    = sectors_sdr_pipeline
        (final (Do Sample.env 42 Sample.owned Sample.two_halves)).
Proof.
  apply (Do_ignores_row_order Sample.env 42 Sample.owned Sample.two_halves
           Sample.two_halves_reordered (mkSectorParams 1000 7 0)
           [mkPiece 0 "p0" 1024 (Some 1016); mkPiece 1 "p1" 1024 (Some 1016)]
           2048).
  - repeat split; reflexivity.
  - repeat constructor; cbn; intuition discriminate.
  - reflexivity.
  - cbn. apply perm_swap.
Defined.

(** * The commitment that is encoded *)

Lemma Do_commd_ok (env : Env) (proof ssize : Z) (pieces : list Piece)
    (w : World) (commd : Cid) :
  result (Do_commd env proof ssize pieces w) = Ok commd ->
  (pieces = [] /\
   commd = zerocomm.ZeroPieceCommitment (abi.Unpadded ssize) /\
   trace (Do_commd env proof ssize pieces w) = []) \/
  (pieces <> [] /\
   exists infos,
     trace (Do_commd env proof ssize pieces w)
       = [CallGenerateUnsealedCID proof infos] /\
     GenerateUnsealedCID env proof infos = Ok commd).
Proof.
  unfold Do_commd, bind, lift, call, ret, after, wrap_err.
  destruct pieces as [|p ps]; cbn [length Nat.ltb Nat.leb].
  - cbn. intros Heq. apply Ok_inj in Heq. left. now repeat split.
  - destruct (layout_pieces env (0, []) (p :: ps)) as [[offset infos]| |];
      cbn; try discriminate.
    destruct (filler.FillersFromRem _) as [fs| |]; cbn; try discriminate.
    destruct (GenerateUnsealedCID env proof
                (infos ++ map filler_piece_info fs)) as [c| |] eqn:Hagg;
      cbn; try discriminate.
    intros Heq. apply Ok_inj in Heq. subst c. right.
    split; [discriminate|]. now eexists.
Qed.

Lemma Do_finish_encodes (env : Env) (taskID : Z) (params : SectorParams)
    (commd : Cid) (w : World) (t : Z) (sref : SectorRef)
    (ticket : list Byte.byte) (c : Cid) :
  In (CallGenerateSDR t sref ticket c)
    (trace (Do_finish env taskID params commd w)) ->
  c = commd.
Proof.
  unfold_task. cbn.
  repeat (split_run;
          try (now intros Hin;
               repeat (destruct Hin as [Hin|Hin]; [try discriminate|]);
               try (now destruct Hin); now inversion Hin)).
Qed.

(** X16: The commitment [Do] gives to the encoding is the one it computed:
    the zero-piece commitment of the sector when the sector has no piece,
    and otherwise what the aggregation returned for the layout, with the
    proof type of the sector. *)
Theorem Do_encodes_the_computed_commitment (env : Env) (taskID : Z)
    (stillOwned : unit -> bool) (w : World) (params : SectorParams)
    (pieces : list Piece) (ssize t : Z) (sref : SectorRef)
    (ticket : list Byte.byte) (commd : Cid) :
  loaded env taskID w params pieces ssize ->
  In (CallGenerateSDR t sref ticket commd)
    (trace (Do env taskID stillOwned w)) ->
  (pieces = [] /\
   commd = zerocomm.ZeroPieceCommitment (abi.Unpadded ssize)) \/
  (pieces <> [] /\
   exists infos,
     In (CallGenerateUnsealedCID (RegSealProof params) infos)
       (trace (Do env taskID stillOwned w)) /\
     GenerateUnsealedCID env (RegSealProof params) infos = Ok commd).
Proof.
  intros Hl. rewrite (Do_loaded _ _ _ _ _ _ _ Hl). unfold bind.
  pose proof (Do_commd_ok env (RegSealProof params) ssize pieces w) as Hok.
  assert (Hquiet : Forall (fun c => is_encoding c = false)
                     (trace (Do_commd env (RegSealProof params) ssize
                               pieces w))).
  { unfold Do_commd, bind, lift, call, ret, after, wrap_err.
    repeat (split_run; try (now repeat constructor)). }
  destruct (Do_commd env (RegSealProof params) ssize pieces w)
    as [tc wc [cd|e|k]]; cbn [trace result] in *.
  - pose proof (Do_finish_encodes env taskID params cd wc t sref ticket commd)
      as Henc.
    destruct (Do_finish env taskID params cd wc) as [tf wf rf].
    cbn [after trace app] in *.
    intros [Hin|[Hin|Hin]]; try discriminate.
    apply in_app_or in Hin. destruct Hin as [Hin|Hin].
    { rewrite Forall_forall in Hquiet. specialize (Hquiet _ Hin).
      discriminate. }
    apply Henc in Hin. subst cd.
    destruct (Hok commd eq_refl) as [(Hnil & Hzero & _)|(Hne & infos & Ht & Hagg)].
    + left. now split.
    + right. split; [exact Hne|]. exists infos. split; [|exact Hagg].
      right. right. apply in_or_app. left. rewrite Ht. now left.
  - cbn. intros [Hin|[Hin|Hin]]; try discriminate.
    rewrite Forall_forall in Hquiet. specialize (Hquiet _ Hin). discriminate.
  - cbn. intros [Hin|[Hin|Hin]]; try discriminate.
    rewrite Forall_forall in Hquiet. specialize (Hquiet _ Hin). discriminate.
Qed.

Lemma Do_encodes_the_computed_commitment_witness :
  ([mkPiece 0 "p0" 1024 (Some 1016); mkPiece 1 "p1" 1024 (Some 1016)] = [] /\
   UnsealedCid 0 [1024; 1024]
     = zerocomm.ZeroPieceCommitment (abi.Unpadded 2048)) \/
  ([mkPiece 0 "p0" 1024 (Some 1016); mkPiece 1 "p1" 1024 (Some 1016)] <> [] /\
   exists infos,
     In (CallGenerateUnsealedCID
           (RegSealProof (mkSectorParams 1000 7 0)) infos)
       (trace (Do Sample.env 42 Sample.owned Sample.two_halves)) /\
     GenerateUnsealedCID Sample.env
       (RegSealProof (mkSectorParams 1000 7 0)) infos
       = Ok (UnsealedCid 0 [1024; 1024])).
Proof.
  apply (Do_encodes_the_computed_commitment Sample.env 42 Sample.owned
           Sample.two_halves (mkSectorParams 1000 7 0)
           [mkPiece 0 "p0" 1024 (Some 1016); mkPiece 1 "p1" 1024 (Some 1016)]
           2048 42 (mkSectorRef 1000 7 0) [Byte.x07]).
  - repeat split; reflexivity.
  - vm_compute. tauto.
Defined.
